(** * deploy-config-generator: template engine and driving loop

    A shallow embedding of [deploy_config_generator/template.py] (the
    [Template] class with its [finalize], [type_fixup], [render_template]
    and [evaluate_condition] methods and the [output_*] filters) and of the
    per-application loop of [deploy_config_generator/__main__.py]
    ([app_validate_fields], [app_render_output], the loop of [main]).

    Python values are an inductive type, dictionaries are association lists
    in insertion order, exceptions and non-termination are explicit in the
    [outcome] type.

    [Template] delegates to a Jinja2 [Environment] built with the
    library's defaults and the class's own [finalize], filters and
    globals.  The engine is modelled for a fragment of its template
    language: text, [{{ name | filter }}] output with the three
    [output_*] filters, [{% if %}/{% else %}/{% endif %}].  What the
    defaults imply there: an undefined name is an [Undefined] object that
    prints as the empty string and is false; the render arguments shadow
    the globals; line breaks of the source become line feeds and one that
    ends the source is dropped; [finalize] is applied to the value of
    every output expression.  A template outside the fragment, or one
    that Jinja2 rejects, yields [Unmodelled], never a made-up result. *)

From Stdlib Require Import String Ascii List ZArith Bool Lia.
From Stdlib Require Import Decimal DecimalString DecimalZ.
Import ListNotations.

Local Open Scope string_scope.
Local Open Scope list_scope.

(** ** Outcomes of Python computations *)

(** Exceptions, by class.  [ValueError] and [TypeError] are the builtins
    raised by [int()], [float()] and the call protocol; the two
    [deploy_config_generator.errors] classes carry their message; any other
    class is named. *)
Inductive exn : Type :=
| ValueError
| TypeError
| DeployConfigError (msg : string)
| ConfigGenerationError (msg : string)
| OtherError (cls : string).

(** [OutOfFuel]: the recursion did not finish within the given depth.
    [Unmodelled]: the input leaves the modelled fragment. *)
Inductive outcome (A : Type) : Type :=
| Ok (a : A)
| Raise (e : exn)
| OutOfFuel
| Unmodelled.

Arguments Ok {A} a.
Arguments Raise {A} e.
Arguments OutOfFuel {A}.
Arguments Unmodelled {A}.

Definition bind {A B : Type} (m : outcome A) (k : A -> outcome B) : outcome B :=
  match m with
  | Ok a => k a
  | Raise e => Raise e
  | OutOfFuel => OutOfFuel
  | Unmodelled => Unmodelled
  end.

Notation "x <- m ;; k" := (bind m (fun x => k))
  (at level 61, m at next level, right associativity).

(** ** Python strings

    A string is a sequence of code points below 256. *)
Module PyStr.

Definition LF : ascii := "010"%char.
Definition CR : ascii := "013"%char.

Fixpoint startswith (p s : string) : bool :=
  match p, s with
  | EmptyString, _ => true
  | String a p', String b s' => Ascii.eqb a b && startswith p' s'
  | String _ _, EmptyString => false
  end.

(** [needle in hay] *)
Fixpoint contains (needle hay : string) : bool :=
  startswith needle hay ||
  match hay with
  | EmptyString => false
  | String _ hay' => contains needle hay'
  end.

Fixpoint has_char (c : ascii) (s : string) : bool :=
  match s with
  | EmptyString => false
  | String a s' => Ascii.eqb a c || has_char c s'
  end.

(** [strip_prefix p s = Some r] when [s = p ++ r]. *)
Fixpoint strip_prefix (p s : string) : option string :=
  match p, s with
  | EmptyString, _ => Some s
  | String a p', String b s' =>
      if Ascii.eqb a b then strip_prefix p' s' else None
  | String _ _, EmptyString => None
  end.

(** [strip_suffix suf s = Some r] when [s = r ++ suf]. *)
Fixpoint strip_suffix (suf s : string) : option string :=
  if String.eqb s suf then Some EmptyString
  else match s with
       | EmptyString => None
       | String c s' => option_map (String c) (strip_suffix suf s')
       end.

(** The whitespace that [int()] accepts around a number. *)
Definition isspace (c : ascii) : bool :=
  let n := nat_of_ascii c in
  (((9 <=? n) && (n <=? 13)) || (n =? 32) || (n =? 133) || (n =? 160))%nat.

Fixpoint lstrip (s : string) : string :=
  match s with
  | EmptyString => EmptyString
  | String c s' => if isspace c then lstrip s' else s
  end.

Fixpoint rstrip (s : string) : string :=
  match s with
  | EmptyString => EmptyString
  | String c s' =>
      match rstrip s' with
      | EmptyString => if isspace c then EmptyString else String c EmptyString
      | r => String c r
      end
  end.

Definition strip (s : string) : string := rstrip (lstrip s).

(** [str.lower] on code points below 256: A-Z and the Latin-1 capitals. *)
Definition lower_char (c : ascii) : ascii :=
  let n := nat_of_ascii c in
  if (((65 <=? n) && (n <=? 90))
      || ((192 <=? n) && (n <=? 222) && negb (n =? 215)))%nat
  then ascii_of_nat (n + 32) else c.

Fixpoint lower (s : string) : string :=
  match s with
  | EmptyString => EmptyString
  | String c s' => String (lower_char c) (lower s')
  end.

Definition is_lower_az (c : ascii) : bool :=
  let n := nat_of_ascii c in ((97 <=? n) && (n <=? 122))%nat.

(** The longest prefix of characters satisfying [f], and the rest. *)
Fixpoint span (f : ascii -> bool) (s : string) : string * string :=
  match s with
  | EmptyString => (EmptyString, EmptyString)
  | String c s' =>
      if f c then let (a, b) := span f s' in (String c a, b)
      else (EmptyString, s)
  end.

Fixpoint all_chars (f : ascii -> bool) (s : string) : bool :=
  match s with
  | EmptyString => true
  | String c s' => f c && all_chars f s'
  end.

Definition is_dec_digit (c : ascii) : bool :=
  let n := nat_of_ascii c in ((48 <=? n) && (n <=? 57))%nat.

Fixpoint last_char (s : string) : option ascii :=
  match s with
  | EmptyString => None
  | String c s' =>
      match last_char s' with
      | None => Some c
      | Some d => Some d
      end
  end.

(** *** [int(s)] on a string

    Python 3: surrounding whitespace, an optional sign, decimal digits,
    single underscores between digits.  [None] stands for
    [ValueError]. *)
Fixpoint drop_underscores (prev_digit : bool) (s : string) : option string :=
  match s with
  | EmptyString => if prev_digit then Some EmptyString else None
  | String c s' =>
      if Ascii.eqb c "_"
      then (if prev_digit then drop_underscores false s' else None)
      else option_map (String c) (drop_underscores true s')
  end.

Definition digits_value (s : string) : option Z :=
  match drop_underscores false s with
  | Some ds => option_map Z.of_uint (NilEmpty.uint_of_string ds)
  | None => None
  end.

Definition int_of_str (s : string) : option Z :=
  match strip s with
  | EmptyString => None
  | String c r =>
      if Ascii.eqb c "+" then digits_value r
      else if Ascii.eqb c "-" then option_map Z.opp (digits_value r)
      else digits_value (String c r)
  end.

(** [str(z)] for an integer. *)
Definition str_of_int (z : Z) : string := NilZero.string_of_int (Z.to_int z).

End PyStr.

(** ** Python floats

    The carrier of [float] and the three builtins the engine applies to it
    are an interface: [float(s)] on a string ([None] is [ValueError]),
    [str(f)] and [bool(f)]. *)
Class PyFloat : Type := {
  pyfloat : Type;
  float_of_str : string -> option pyfloat;
  str_of_float : pyfloat -> string;
  bool_of_float : pyfloat -> bool
}.

(** An instance without any float value, to run the engine on inputs that
    contain none. *)
#[export] Instance no_floats : PyFloat := {|
  pyfloat := Empty_set;
  float_of_str := fun _ => None;
  str_of_float := fun f => match f with end;
  bool_of_float := fun f => match f with end
|}.

(** ** Jinja2 syntax of the modelled fragment *)

(** The three output filters of [FILTERS]. *)
Inductive filter : Type :=
| output_int
| output_float
| output_bool.

Inductive expr : Type :=
| EName (name : string)
| EBool (b : bool)
| ENone
| EFilter (e : expr) (f : filter).

#[warnings="-register-all"]
Inductive node : Type :=
| NData (text : string)
| NOutput (e : expr)
| NIf (test : expr) (body else_ : list node).

(** Tokens inside a [{{ }}] or [{% %}] tag, and tokens of a template. *)
Inductive etok : Type :=
| TName (name : string)
| TPipe.

Inductive ttok : Type :=
| TData (text : string)
| TOut (e : expr)
| TIf (test : expr)
| TElse
| TEndif.

(** Induction on nodes through the branches of a conditional. *)
Section NodeInd.

Variable P : node -> Prop.
Hypothesis HData : forall s, P (NData s).
Hypothesis HOutput : forall e, P (NOutput e).
Hypothesis HIf : forall t b e, Forall P b -> Forall P e -> P (NIf t b e).

Fixpoint node_ind' (n : node) : P n :=
  match n with
  | NData s => HData s
  | NOutput e => HOutput e
  | NIf t b e =>
      let go := fix go (l : list node) : Forall P l :=
                  match l with
                  | [] => Forall_nil _
                  | x :: r => Forall_cons _ (node_ind' x) (go r)
                  end in
      HIf t b e (go b) (go e)
  end.

End NodeInd.

Module Jinja.

Import PyStr.

(** Line boundaries of [str.splitlines] below code point 256. *)
Definition is_linebreak (c : ascii) : bool :=
  let n := nat_of_ascii c in
  (((10 <=? n) && (n <=? 13)) || ((28 <=? n) && (n <=? 30)) || (n =? 133))%nat.

(** Those among them that are a line break for some Jinja2 versions only:
    a source containing one is outside the fragment. *)
Definition is_odd_linebreak (c : ascii) : bool :=
  is_linebreak c && negb (Ascii.eqb c LF) && negb (Ascii.eqb c CR).

Fixpoint has_odd_linebreak (s : string) : bool :=
  match s with
  | EmptyString => false
  | String c s' => is_odd_linebreak c || has_odd_linebreak s'
  end.

(** The lexer first rewrites the source as ['\n'.join(source.splitlines())]
    ([keep_trailing_newline] is off): every CR LF, CR or LF becomes LF,
    and one that ends the source is dropped. *)
Fixpoint normalize_newlines (s : string) : string :=
  let break (rest : string) (k : string) :=
    match rest with
    | EmptyString => EmptyString
    | String _ _ => String LF k
    end in
  match s with
  | EmptyString => EmptyString
  | String c s' =>
      if Ascii.eqb c CR then
        match s' with
        | String c' s'' =>
            if Ascii.eqb c' LF then break s'' (normalize_newlines s'')
            else break s' (normalize_newlines s')
        | EmptyString => EmptyString
        end
      else if Ascii.eqb c LF then break s' (normalize_newlines s')
      else String c (normalize_newlines s')
  end.

Definition is_digit (c : ascii) : bool :=
  let n := nat_of_ascii c in ((48 <=? n) && (n <=? 57))%nat.

(** Characters of a name: [[a-zA-Z0-9_]]. *)
Definition is_name_char (c : ascii) : bool :=
  let n := nat_of_ascii c in
  (((97 <=? n) && (n <=? 122)) || ((65 <=? n) && (n <=? 90))
   || ((48 <=? n) && (n <=? 57)) || (n =? 95))%nat.

(** Whitespace inside a tag: space, tab, line feed. *)
Definition is_tag_space (c : ascii) : bool :=
  let n := nat_of_ascii c in ((n =? 32) || (n =? 9) || (n =? 10))%nat.

(** Names the parser or the runtime treats specially: operators and
    statement keywords, the runtime's own names, the default globals of a
    Jinja2 environment and the [evaluate_condition] function of [GLOBALS].
    An expression that uses one as a variable is outside the fragment. *)
Definition reserved_names : list string :=
  [ "not"; "and"; "or"; "in"; "is"; "if"; "else"; "elif"; "endif"; "for";
    "endfor"; "recursive"; "set"; "block"; "extends"; "include"; "import";
    "from"; "macro"; "call"; "filter"; "with"; "without"; "ignore";
    "missing"; "context"; "raw"; "print"; "do"; "continue"; "break";
    "autoescape"; "trans"; "pluralize";
    "self"; "loop"; "super"; "varargs"; "kwargs"; "caller";
    "range"; "dict"; "lipsum"; "cycler"; "joiner"; "namespace";
    "evaluate_condition" ].

Definition mem_string (x : string) (l : list string) : bool :=
  existsb (String.eqb x) l.

Definition primary (n : string) : option expr :=
  if mem_string n ["true"; "True"] then Some (EBool true)
  else if mem_string n ["false"; "False"] then Some (EBool false)
  else if mem_string n ["none"; "None"] then Some ENone
  else if mem_string n reserved_names then None
  else Some (EName n).

Definition filter_of_name (n : string) : option filter :=
  if n =? "output_int" then Some output_int
  else if n =? "output_float" then Some output_float
  else if n =? "output_bool" then Some output_bool
  else None.

Fixpoint parse_filters (e : expr) (toks : list etok) : option expr :=
  match toks with
  | [] => Some e
  | TPipe :: TName f :: rest =>
      match filter_of_name f with
      | Some fl => parse_filters (EFilter e fl) rest
      | None => None
      end
  | _ => None
  end.

Definition parse_expr (toks : list etok) : option expr :=
  match toks with
  | TName n :: rest =>
      match primary n with
      | Some e => parse_filters e rest
      | None => None
      end
  | _ => None
  end.

(** The statement of a [{% %}] tag. *)
Definition parse_block (toks : list etok) : option ttok :=
  match toks with
  | TName tag :: rest =>
      if tag =? "if" then option_map TIf (parse_expr rest)
      else if tag =? "else" then
        match rest with [] => Some TElse | _ => None end
      else if tag =? "endif" then
        match rest with [] => Some TEndif | _ => None end
      else None
  | _ => None
  end.

Definition close_tag (block : bool) (toks : list etok) : option ttok :=
  if block then parse_block toks else option_map TOut (parse_expr toks).

Inductive lex_state : Type :=
| InData (acc : string)
| InTag (block : bool) (toks : list etok) (cur : string).

Definition push_char (s : string) (c : ascii) : string :=
  s ++ String c EmptyString.

Definition emit_data (acc : string) : list ttok :=
  match acc with
  | EmptyString => []
  | _ => [TData acc]
  end.

Definition flush_name (cur : string) (toks : list etok) : list etok :=
  match cur with
  | EmptyString => toks
  | _ => toks ++ [TName cur]
  end.

(** The lexer, one character at a time.  In text, [{{] and [{%] open a
    tag and [{#] (a comment) leaves the fragment.  In a tag, names and [|]
    are tokens, [}}] (resp. [%}]) closes; any other character (a digit
    that starts a token, a quote, an operator, whitespace control) leaves
    the fragment. *)
Fixpoint lex (st : lex_state) (out : list ttok) (s : string)
  : option (list ttok) :=
  match s with
  | EmptyString =>
      match st with
      | InData acc => Some (out ++ emit_data acc)
      | InTag _ _ _ => None
      end
  | String c s' =>
      match st with
      | InData acc =>
          if Ascii.eqb c "{" then
            match s' with
            | String c' s'' =>
                if Ascii.eqb c' "{"
                then lex (InTag false [] EmptyString) (out ++ emit_data acc) s''
                else if Ascii.eqb c' "%"
                then lex (InTag true [] EmptyString) (out ++ emit_data acc) s''
                else if Ascii.eqb c' "#" then None
                else lex (InData (push_char acc c)) out s'
            | EmptyString => lex (InData (push_char acc c)) out s'
            end
          else lex (InData (push_char acc c)) out s'
      | InTag block toks cur =>
          if is_name_char c then
            match cur with
            | EmptyString =>
                if is_digit c then None
                else lex (InTag block toks (push_char cur c)) out s'
            | _ => lex (InTag block toks (push_char cur c)) out s'
            end
          else
            let toks' := flush_name cur toks in
            if is_tag_space c then lex (InTag block toks' EmptyString) out s'
            else if Ascii.eqb c "|"
            then lex (InTag block (toks' ++ [TPipe]) EmptyString) out s'
            else if Ascii.eqb c (if block then "%" else "}")%char then
              match s' with
              | String c' s'' =>
                  if Ascii.eqb c' "}" then
                    match close_tag block toks' with
                    | Some t => lex (InData EmptyString) (out ++ [t]) s''
                    | None => None
                    end
                  else None
              | EmptyString => None
              end
            else None
      end
  end.

(** Nodes up to the next [{% else %}], [{% endif %}] or the end. *)
Fixpoint parse_body (fuel : nat) (toks : list ttok)
  : option (list node * list ttok) :=
  match fuel with
  | O => None
  | S fuel' =>
      match toks with
      | [] => Some ([], [])
      | TData s :: rest =>
          match parse_body fuel' rest with
          | Some (ns, r) => Some (NData s :: ns, r)
          | None => None
          end
      | TOut e :: rest =>
          match parse_body fuel' rest with
          | Some (ns, r) => Some (NOutput e :: ns, r)
          | None => None
          end
      | TIf e :: rest =>
          match parse_body fuel' rest with
          | Some (body, TElse :: r1) =>
              match parse_body fuel' r1 with
              | Some (else_, TEndif :: r2) =>
                  match parse_body fuel' r2 with
                  | Some (ns, r) => Some (NIf e body else_ :: ns, r)
                  | None => None
                  end
              | _ => None
              end
          | Some (body, TEndif :: r2) =>
              match parse_body fuel' r2 with
              | Some (ns, r) => Some (NIf e body [] :: ns, r)
              | None => None
              end
          | _ => None
          end
      | TElse :: _ | TEndif :: _ => Some ([], toks)
      end
  end.

Definition parse_template (toks : list ttok) : option (list node) :=
  match parse_body (S (length toks)) toks with
  | Some (ns, []) => Some ns
  | _ => None
  end.

(** Template syntax in a string: the start of an output tag, of a
    statement or of a comment. *)
Definition has_template_syntax (s : string) : bool :=
  contains "{{" s || contains "{%" s || contains "{#" s.

Definition no_linebreak (s : string) : bool :=
  all_chars (fun c => negb (is_linebreak c)) s.

(** A name that an expression of the fragment reads as a variable. *)
Definition is_variable_name (n : string) : bool :=
  all_chars is_name_char n
  && match n with
     | EmptyString => false
     | String c _ => negb (is_digit c)
     end
  && match primary n with
     | Some (EName _) => true
     | _ => false
     end.

(** [Environment.from_string]: [None] when the source is not a template
    of the fragment. *)
Definition from_string (source : string) : option (list node) :=
  if has_odd_linebreak source then None
  else match lex (InData EmptyString) [] (normalize_newlines source) with
       | Some toks => parse_template toks
       | None => None
       end.

End Jinja.

(** ** The template engine ([template.py]) *)

Section Engine.

Context {F : PyFloat}.

Import PyStr.

(** Python values: what a parsed YAML document, a variable scope and a
    rendered structure are made of.  A [dict] lists its items in
    insertion order; [VUndefined] is Jinja2's [Undefined] object. *)
#[warnings="-register-all"]
Inductive value : Type :=
| VNone
| VBool (b : bool)
| VInt (z : Z)
| VFloat (f : pyfloat)
| VStr (s : string)
| VList (items : list value)
| VTuple (items : list value)
| VDict (items : list (string * value))
| VUndefined.

(** A variable scope, the [args] of [render_template]: a [dict] from
    names to values, passed to Jinja2 as keyword arguments. *)
Definition scope : Type := list (string * value).

Fixpoint dict_get (k : string) (d : list (string * value)) : option value :=
  match d with
  | [] => None
  | (k', v) :: d' => if String.eqb k k' then Some v else dict_get k d'
  end.

(** [d[k] = v]: an existing key keeps its place. *)
Fixpoint dict_set (k : string) (v : value) (d : list (string * value))
  : list (string * value) :=
  match d with
  | [] => [(k, v)]
  | (k', v') :: d' =>
      if String.eqb k k' then (k, v) :: d' else (k', v') :: dict_set k v d'
  end.

Definition OMIT_TOKEN : string := "__OMIT__TOKEN__".

(** [v == OMIT_TOKEN] *)
Definition is_omit (v : value) : bool :=
  match v with
  | VStr s => String.eqb s OMIT_TOKEN
  | _ => false
  end.

(** [str(v)]; the [repr] of containers is outside the fragment. *)
Definition py_str (v : value) : outcome string :=
  match v with
  | VNone => Ok "None"
  | VBool true => Ok "True"
  | VBool false => Ok "False"
  | VInt z => Ok (str_of_int z)
  | VFloat f => Ok (str_of_float f)
  | VStr s => Ok s
  | VUndefined => Ok EmptyString
  | VList _ | VTuple _ | VDict _ => Unmodelled
  end.

(** [bool(v)] *)
Definition py_bool (v : value) : bool :=
  match v with
  | VNone => false
  | VBool b => b
  | VInt z => negb (Z.eqb z 0)
  | VFloat f => bool_of_float f
  | VStr s => negb (String.eqb s EmptyString)
  | VList l | VTuple l => match l with [] => false | _ => true end
  | VDict d => match d with [] => false | _ => true end
  | VUndefined => false
  end.

(** *** The output filters *)

Definition filter_output_int (arg : value) : outcome string :=
  s <- py_str arg ;; Ok ("__int__" ++ s ++ "__int__")%string.

Definition filter_output_float (arg : value) : outcome string :=
  s <- py_str arg ;; Ok ("__float__" ++ s ++ "__float__")%string.

Definition filter_output_bool (arg : value) : outcome string :=
  s <- py_str arg ;; Ok ("__bool__" ++ s ++ "__bool__")%string.

Definition apply_filter (f : filter) (arg : value) : outcome string :=
  match f with
  | output_int => filter_output_int arg
  | output_float => filter_output_float arg
  | output_bool => filter_output_bool arg
  end.

(** *** [type_fixup] *)

(** [re.match] with the pattern of [type_fixup]: [^__], a type made of
    one or more of [a-z], [__], a payload of any characters but line
    feeds, [__], the same type again, [__$].  The result is the type and
    the payload of a match.  After the leading [__] the type is the
    whole run of lower-case letters, which [__] must follow; the string
    then ends in [__type__], or in [__type__] and one line feed ([$]
    also matches before a final line feed). *)
Definition marker_match (s : string) : option (string * string) :=
  match strip_prefix "__" s with
  | None => None
  | Some r1 =>
      let (ty, r2) := span is_lower_az r1 in
      match ty with
      | EmptyString => None
      | _ =>
          match strip_prefix "__" r2 with
          | None => None
          | Some r3 =>
              let body :=
                match strip_suffix (String LF EmptyString) r3 with
                | Some b => b
                | None => r3
                end in
              match strip_suffix ("__" ++ ty ++ "__") body with
              | Some payload =>
                  if has_char LF payload then None else Some (ty, payload)
              | None => None
              end
          end
      end
  end.

Definition type_fixup (val : value) : outcome value :=
  match val with
  | VStr s =>
      match marker_match s with
      | Some (value_type, payload) =>
          if value_type =? "int" then
            match int_of_str payload with
            | Some z => Ok (VInt z)
            | None => Raise ValueError
            end
          else if value_type =? "float" then
            match float_of_str payload with
            | Some f => Ok (VFloat f)
            | None => Raise ValueError
            end
          else if value_type =? "bool" then
            if lower payload =? "true" then Ok (VBool true)
            else Ok (VBool false)
          else Ok val
      | None => Ok val
      end
  | _ => Ok val
  end.

(** *** Rendering a parsed template *)

(** Name resolution: the render arguments first, then [GLOBALS] (its
    [omit] entry; the function entry is a reserved name), else
    [Undefined]. *)
Definition resolve (ctx : scope) (name : string) : value :=
  match dict_get name ctx with
  | Some v => v
  | None => if name =? "omit" then VStr OMIT_TOKEN else VUndefined
  end.

Fixpoint eval_expr (ctx : scope) (e : expr) : outcome value :=
  match e with
  | EName n => Ok (resolve ctx n)
  | EBool b => Ok (VBool b)
  | ENone => Ok VNone
  | EFilter e' f =>
      v <- eval_expr ctx e' ;;
      s <- apply_filter f v ;;
      Ok (VStr s)
  end.

(** [Template.finalize].  [render] stands for
    [context.environment.from_string(.).render(context)]. *)
Definition finalize (render : string -> outcome string) (val : value)
  : outcome value :=
  match val with
  | VStr s =>
      if contains "{{" s || contains "{%" s
      then r <- render s ;; Ok (VStr r)
      else Ok val
  | _ => Ok val
  end.

(** The output of a list of nodes: text as it is, an expression as
    [to_string(finalize(context, value))], a conditional as the output of
    the branch chosen by the truth of the test.  [render] is the
    rendering that [finalize] calls.  (The Jinja2 releases that also pass
    the text of a template to [finalize] get it back unchanged: text
    holds neither [{{] nor [{%].) *)
Section Nodes.

Variable render : string -> outcome string.
Variable ctx : scope.

Fixpoint render_node (n : node) : outcome string :=
  match n with
  | NData s => Ok s
  | NOutput e =>
      v <- eval_expr ctx e ;;
      v' <- finalize render v ;;
      py_str v'
  | NIf test body else_ =>
      let render_nodes :=
        fix render_nodes (ns : list node) : outcome string :=
          match ns with
          | [] => Ok EmptyString
          | n' :: ns' =>
              a <- render_node n' ;;
              b <- render_nodes ns' ;;
              Ok (a ++ b)%string
          end in
      v <- eval_expr ctx test ;;
      if py_bool v then render_nodes body else render_nodes else_
  end.

Fixpoint render_nodes (ns : list node) : outcome string :=
  match ns with
  | [] => Ok EmptyString
  | n :: ns' =>
      a <- render_node n ;;
      b <- render_nodes ns' ;;
      Ok (a ++ b)%string
  end.

End Nodes.

(** [env.from_string(source).render(context)], with a bound [fuel] on the
    depth of the renderings nested through [finalize].  The source has no
    such bound of its own: an unbounded nesting shows as [OutOfFuel] for
    every [fuel].  (In Python the interpreter's recursion limit ends it:
    see [render_template_limited].) *)
Fixpoint render_source (fuel : nat) (source : string) (ctx : scope)
  : outcome string :=
  match fuel with
  | O => OutOfFuel
  | S fuel' =>
      match Jinja.from_string source with
      | None => Unmodelled
      | Some ns =>
          render_nodes (fun s => render_source fuel' s ctx) ctx ns
      end
  end.

Definition has_key (k : string) (d : scope) : bool :=
  match dict_get k d with Some _ => true | None => false end.

(** [self._env.from_string(source).render] applied to the keyword
    arguments [**args]: [render] already has a parameter [self], so the
    call raises [TypeError] when [args] has a key [self]. *)
Definition env_render (fuel : nat) (source : string) (args : scope)
  : outcome string :=
  match Jinja.from_string source with
  | None => Unmodelled
  | Some _ =>
      if has_key "self" args then Raise TypeError
      else render_source fuel source args
  end.

(** *** [Template.render_template] *)

(** The two [for] loops of [render_template], from the state [ret] they
    have reached; [render] stands for the recursive call
    [self.render_template(v, args)]. *)
Section Loops.

Variable render : value -> outcome value.

Fixpoint render_dict_items (items ret : list (string * value))
  : outcome (list (string * value)) :=
  match items with
  | [] => Ok ret
  | (k, v) :: rest =>
      if is_omit v then render_dict_items rest ret
      else
        r <- render v ;;
        x <- type_fixup r ;;
        render_dict_items rest (dict_set k x ret)
  end.

Fixpoint render_list_items (items ret : list value) : outcome (list value) :=
  match items with
  | [] => Ok ret
  | v :: rest =>
      if is_omit v then render_list_items rest ret
      else
        r <- render v ;;
        x <- type_fixup r ;;
        render_list_items rest (ret ++ [x])
  end.

End Loops.

Fixpoint render_template (fuel : nat) (template : value) (args : scope)
  : outcome value :=
  match template with
  | VDict items =>
      ret <- render_dict_items
               (fun v => render_template fuel v args) items [] ;;
      Ok (VDict ret)
  | VList items | VTuple items =>
      ret <- render_list_items
               (fun v => render_template fuel v args) items [] ;;
      Ok (VList ret)
  | VStr s => r <- env_render fuel s args ;; Ok (VStr r)
  | _ => Ok template
  end.

(** *** The interpreter's recursion limit *)

(** Nothing in [template.py] counts or bounds the renderings that nest
    through [finalize].  What ends them in Python is the interpreter: a
    chain of calls that outgrows its recursion limit is ended by
    [RecursionError], which neither the module nor Jinja2 catches.  The
    [fuel] above is the number of renderings that may nest; where the
    interpreter leaves room for [limit] of them, [OutOfFuel] is that
    error.  ([limit] depends on the interpreter's setting and on the
    stack already in use, not on the engine.) *)
Definition RecursionError : exn := OtherError "RecursionError".

Definition at_recursion_limit {A : Type} (o : outcome A) : outcome A :=
  match o with
  | OutOfFuel => Raise RecursionError
  | _ => o
  end.

(** [Template.render_template] called where the interpreter allows
    [limit] nested renderings. *)
Definition render_template_limited (limit : nat) (template : value)
  (args : scope) : outcome value :=
  at_recursion_limit (render_template limit template args).

(** *** [Template.evaluate_condition] *)

Definition condition_template (condition : string) : string :=
  ("{% if " ++ condition ++ " %}True{% else %}False{% endif %}")%string.

Definition evaluate_condition (fuel : nat) (condition : string)
  (tmp_vars : scope) : outcome bool :=
  ret <- env_render fuel (condition_template condition) tmp_vars ;;
  if ret =? "True" then Ok true else Ok false.

(** *** What the statements below are about *)

(** One entry of a mapping or sequence, as the loops treat it: rendered,
    then fixed up. *)
Definition render_entry (fuel : nat) (args : scope) (v : value)
  : outcome value :=
  r <- render_template fuel v args ;; type_fixup r.

Fixpoint traverse {A B : Type} (f : A -> outcome B) (l : list A)
  : outcome (list B) :=
  match l with
  | [] => Ok []
  | a :: l' => b <- f a ;; bs <- traverse f l' ;; Ok (b :: bs)
  end.

(** The omit rule in the words of the specification: the entries equal to
    the sentinel are absent, the others are rendered, in their order. *)
Definition omit_filtered_list (fuel : nat) (args : scope) (items : list value)
  : outcome (list value) :=
  traverse (render_entry fuel args)
           (List.filter (fun v => negb (is_omit v)) items).

Definition omit_filtered_dict (fuel : nat) (args : scope)
  (items : list (string * value)) : outcome (list (string * value)) :=
  traverse (fun kv => x <- render_entry fuel args (snd kv) ;; Ok (fst kv, x))
           (List.filter (fun kv => negb (is_omit (snd kv))) items).

(** A string that [type_fixup] would convert: a marker whose type is
    [int], [float] or [bool]. *)
Definition is_typed_marker (v : value) : bool :=
  match v with
  | VStr s =>
      match marker_match s with
      | Some (ty, _) => (ty =? "int") || (ty =? "float") || (ty =? "bool")
      | None => false
      end
  | _ => false
  end.

(** No entry of a mapping or sequence, at any depth, is such a marker. *)
Fixpoint entries_fixed (v : value) : bool :=
  match v with
  | VList l | VTuple l =>
      forallb (fun x => negb (is_typed_marker x) && entries_fixed x) l
  | VDict d =>
      forallb (fun kv => negb (is_typed_marker (snd kv))
                         && entries_fixed (snd kv)) d
  | _ => true
  end.

Definition entry_ok (x : value) : bool :=
  negb (is_typed_marker x) && entries_fixed x.

(** The template that outputs one variable. *)
Definition output_of (name : string) : string :=
  ("{{ " ++ name ++ " }}")%string.

(** [indirection args n k t]: in the scope [args] the variable [n] leads
    to the text [t] through [k] indirections, each the value of a
    variable being a template that outputs the next variable; [t] itself
    holds no template. *)
Inductive indirection (args : scope) : string -> nat -> string -> Prop :=
| indirection_end (n t : string) :
    Jinja.is_variable_name n = true ->
    dict_get n args = Some (VStr t) ->
    contains "{{" t || contains "{%" t = false ->
    indirection args n 0 t
| indirection_step (n m : string) (k : nat) (t : string) :
    Jinja.is_variable_name n = true ->
    dict_get n args = Some (VStr (output_of m)) ->
    indirection args m k t ->
    indirection args n (S k) t.

(** Induction on values through their lists. *)
Section ValueInd.

Variable P : value -> Prop.
Hypothesis HNone : P VNone.
Hypothesis HBool : forall b, P (VBool b).
Hypothesis HInt : forall z, P (VInt z).
Hypothesis HFloat : forall f, P (VFloat f).
Hypothesis HStr : forall s, P (VStr s).
Hypothesis HList : forall l, Forall P l -> P (VList l).
Hypothesis HTuple : forall l, Forall P l -> P (VTuple l).
Hypothesis HDict : forall d, Forall (fun kv => P (snd kv)) d -> P (VDict d).
Hypothesis HUndefined : P VUndefined.

Fixpoint value_ind' (v : value) : P v :=
  match v with
  | VNone => HNone
  | VBool b => HBool b
  | VInt z => HInt z
  | VFloat f => HFloat f
  | VStr s => HStr s
  | VList l =>
      HList l ((fix go (l : list value) : Forall P l :=
                  match l with
                  | [] => Forall_nil _
                  | x :: r => Forall_cons _ (value_ind' x) (go r)
                  end) l)
  | VTuple l =>
      HTuple l ((fix go (l : list value) : Forall P l :=
                   match l with
                   | [] => Forall_nil _
                   | x :: r => Forall_cons _ (value_ind' x) (go r)
                   end) l)
  | VDict d =>
      HDict d ((fix go (d : list (string * value))
                  : Forall (fun kv => P (snd kv)) d :=
                  match d with
                  | [] => Forall_nil _
                  | kv :: r => Forall_cons _ (value_ind' (snd kv)) (go r)
                  end) d)
  | VUndefined => HUndefined
  end.

End ValueInd.

End Engine.

(** ** The driving loop ([__main__.py]) *)

Module Driver.

(** What the loop does that can be observed: a line given to
    [DISPLAY.display], a call of a plugin's [generate]. *)
Inductive event : Type :=
| Display (msg : string)
| Generate (plugin_name : string) (app_ordinal : nat).

Section Plugins.

(** The values of an application descriptor. *)
Context {V : Type}.

(** An application descriptor: a mapping from field names to values.  A
    descriptor that is no mapping (the [None] of an empty document) is not
    represented: there [for field in app] raises a [TypeError] that
    nothing catches. *)
Definition app : Type := list (string * V).

(** The part of an output plugin the loop uses.  The plugin base class
    is not part of the sources at hand: its methods are the fields of this
    record.  [generate] returns [None] when it returns, [Some e] when it
    raises [e]. *)
Record plugin : Type := {
  NAME : string;
  has_field : string -> bool;
  is_needed : app -> bool;
  generate : app -> nat -> option exn
}.

(** ['%d' % n] *)
Definition str_of_nat (n : nat) : string :=
  NilZero.string_of_uint (Nat.to_uint n).

(** The inner loop of [app_validate_fields] over the plugins. *)
Definition valid_field (field : string) (a : app) (output_plugins : list plugin)
  : bool :=
  existsb (fun p => has_field p field && is_needed p a) output_plugins.

Definition invalid_field_msg (field : string) (app_index : nat) : string :=
  "field '" ++ field ++ "' in application " ++ str_of_nat (app_index + 1)
  ++ " is not valid for relevant output plugins".

(** The body of the [try] of [app_validate_fields]: [Some e] when it
    raises [e]. *)
Fixpoint validate_fields (fields : list string) (a : app) (app_index : nat)
  (output_plugins : list plugin) : option exn :=
  match fields with
  | [] => None
  | field :: rest =>
      if valid_field field a output_plugins
      then validate_fields rest a app_index output_plugins
      else Some (DeployConfigError (invalid_field_msg field app_index))
  end.

(** The events of a call and the exception that leaves it, if any. *)
Definition app_validate_fields (a : app) (app_index : nat)
  (output_plugins : list plugin) : list event * option exn :=
  match validate_fields (map fst a) a app_index output_plugins with
  | Some (DeployConfigError m) =>
      ([Display ("Failed to load deploy config: " ++ m)], None)
  | Some e => ([], Some e)
  | None => ([], None)
  end.

(** The body of the [try] of [app_render_output]. *)
Fixpoint generate_all (a : app) (app_index : nat) (output_plugins : list plugin)
  : list event * option exn :=
  match output_plugins with
  | [] => ([], None)
  | p :: rest =>
      if is_needed p a then
        match generate p a (app_index + 1) with
        | None =>
            let (evs, res) := generate_all a app_index rest in
            (Generate (NAME p) (app_index + 1) :: evs, res)
        | Some e => ([Generate (NAME p) (app_index + 1)], Some e)
        end
      else generate_all a app_index rest
  end.

Definition app_render_output (a : app) (app_index : nat)
  (output_plugins : list plugin) : list event * option exn :=
  let (evs, res) := generate_all a app_index output_plugins in
  match res with
  | Some (ConfigGenerationError m) =>
      (evs ++ [Display ("Failed to generate deploy config: " ++ m)], None)
  | _ => (evs, res)
  end.

(** The loop that ends [main]:
    [for app_idx, app in enumerate(deploy_config)], from index
    [app_idx]. *)
Fixpoint main_loop (app_idx : nat) (deploy_config : list app)
  (output_plugins : list plugin) : list event * option exn :=
  match deploy_config with
  | [] => ([], None)
  | a :: rest =>
      let (ev1, r1) := app_validate_fields a app_idx output_plugins in
      match r1 with
      | Some e => (ev1, Some e)
      | None =>
          let (ev2, r2) := app_render_output a app_idx output_plugins in
          match r2 with
          | Some e => (ev1 ++ ev2, Some e)
          | None =>
              let (ev3, r3) := main_loop (S app_idx) rest output_plugins in
              (ev1 ++ ev2 ++ ev3, r3)
          end
      end
  end.

End Plugins.

(** Two plugins to run the loop on.  [dummy_plugin] declares the fields
    of [output/dummy.py], takes part for every application and generates
    without error; [failing_plugin] is the same except that its
    [generate] raises [ConfigGenerationError]. *)
Definition dummy_plugin : @plugin string := {|
  NAME := "dummy";
  has_field := fun f => (f =? "name") || (f =? "dummy");
  is_needed := fun _ => true;
  generate := fun _ _ => None
|}.

Definition failing_plugin : @plugin string := {|
  NAME := "failing";
  has_field := fun f => (f =? "name") || (f =? "dummy");
  is_needed := fun _ => true;
  generate := fun _ _ => Some (ConfigGenerationError "boom")
|}.

End Driver.

(** ** More of [template.py]: [to_nice_json], and shapes of values *)

Section EngineMore.

Context {F : PyFloat}.

Import PyStr.

(** [s.split('\n')] and ['\n'.join(lines)]. *)
Fixpoint split_lines (s : string) : list string :=
  match s with
  | EmptyString => [EmptyString]
  | String c r =>
      if Ascii.eqb c LF then EmptyString :: split_lines r
      else match split_lines r with
           | l :: ls => String c l :: ls
           | [] => [String c EmptyString]
           end
  end.

Fixpoint join_lines (lines : list string) : string :=
  match lines with
  | [] => EmptyString
  | [l] => l
  | l :: rest => (l ++ String LF (join_lines rest))%string
  end.

(** [' ' * n] *)
Fixpoint spaces (n : nat) : string :=
  match n with
  | O => EmptyString
  | S k => String " " (spaces k)
  end.

Section NiceJson.

(** [json.dumps(arg, sort_keys=True, indent=indent)], from the standard
    library. *)
Variable json_dumps : value -> option Z -> outcome string.

Definition filter_to_json (arg : value) (indent : option Z) : outcome string :=
  json_dumps arg indent.

(** [prefix_indent] is [None] or an integer; a negative one is true and
    repeats the space zero times. *)
Definition filter_to_nice_json (arg : value) (indent : Z)
  (prefix_indent : option Z) : outcome string :=
  out <- filter_to_json arg (Some indent) ;;
  match prefix_indent with
  | None => Ok out
  | Some z =>
      if Z.eqb z 0 then Ok out
      else Ok (join_lines
                 (map (fun line => (spaces (Z.to_nat z) ++ line)%string)
                      (split_lines out)))
  end.

End NiceJson.

(** A value without a tuple at any depth. *)
Fixpoint no_tuple (v : value) : bool :=
  match v with
  | VTuple _ => false
  | VList l => forallb no_tuple l
  | VDict d => forallb (fun kv => no_tuple (snd kv)) d
  | _ => true
  end.

Fixpoint unique_keys (keys : list string) : bool :=
  match keys with
  | [] => true
  | k :: rest => negb (existsb (String.eqb k) rest) && unique_keys rest
  end.

(** Data without text: [None], booleans, numbers, and the lists and
    dictionaries (each key once) made of them. *)
Fixpoint plain_data (v : value) : bool :=
  match v with
  | VNone | VBool _ | VInt _ | VFloat _ => true
  | VList l => forallb plain_data l
  | VDict d =>
      unique_keys (map fst d) && forallb (fun kv => plain_data (snd kv)) d
  | VStr _ | VTuple _ | VUndefined => false
  end.

Definition filter_name (f : filter) : string :=
  match f with
  | output_int => "output_int"
  | output_float => "output_float"
  | output_bool => "output_bool"
  end.

(** The template that outputs one variable through one filter. *)
Definition filtered_output_of (name : string) (f : filter) : string :=
  ("{{ " ++ name ++ " | " ++ filter_name f ++ " }}")%string.

End EngineMore.

(** ** The Marathon plugin ([output/marathon.py]) *)

Module Marathon.

Import PyStr.

(** [c.upper()] for a letter of [a-z]. *)
Definition upper_char (c : ascii) : ascii :=
  if is_lower_az c then ascii_of_nat (nat_of_ascii c - 32) else c.

(** [re.sub(r'_[a-z]', replacer, value)]: from left to right, an
    underscore followed by a lower-case letter becomes that letter in
    upper case. *)
Fixpoint underscore_to_camelcase (value : string) : string :=
  match value with
  | EmptyString => EmptyString
  | String c rest =>
      if Ascii.eqb c "_" then
        match rest with
        | String d rest' =>
            if is_lower_az d
            then String (upper_char d) (underscore_to_camelcase rest')
            else String c (underscore_to_camelcase rest)
        | EmptyString => String c EmptyString
        end
      else String c (underscore_to_camelcase rest)
  end.

(** An underscore followed by a lower-case letter occurs in [s]. *)
Fixpoint has_underscore_lower (s : string) : bool :=
  match s with
  | EmptyString => false
  | String c rest =>
      (Ascii.eqb c "_"
       && match rest with
          | String d _ => is_lower_az d
          | EmptyString => false
          end)
      || has_underscore_lower rest
  end.

Section Builders.

Context {F : PyFloat}.

(** [obj[key]] for a string key.  [Undefined] is outside the fragment. *)
Definition py_getitem (obj : value) (key : string) : outcome value :=
  match obj with
  | VDict d =>
      match dict_get key d with
      | Some v => Ok v
      | None => Raise (OtherError "KeyError")
      end
  | VUndefined => Unmodelled
  | _ => Raise TypeError
  end.

(** The items that [enumerate(obj)] goes through; a string and
    [Undefined] are outside the fragment. *)
Definition py_iter (obj : value) : outcome (list value) :=
  match obj with
  | VList l | VTuple l => Ok l
  | VDict d => Ok (map (fun kv => VStr (fst kv)) d)
  | VStr _ | VUndefined => Unmodelled
  | VNone | VBool _ | VInt _ | VFloat _ => Raise TypeError
  end.

(** [int(v)]; the truncation of a float is outside the fragment. *)
Definition int_of_value (v : value) : outcome Z :=
  match v with
  | VInt z => Ok z
  | VBool b => Ok (if b then 1 else 0)%Z
  | VStr s =>
      match int_of_str s with
      | Some z => Ok z
      | None => Raise ValueError
      end
  | VFloat _ | VUndefined => Unmodelled
  | VNone | VList _ | VTuple _ | VDict _ => Raise TypeError
  end.

(** [del d[k]] when [k] is a key of [d]. *)
Fixpoint dict_remove (k : string) (d : list (string * value))
  : list (string * value) :=
  match d with
  | [] => []
  | (k', v) :: d' =>
      if String.eqb k k' then dict_remove k d' else (k', v) :: dict_remove k d'
  end.

(** *** [build_unreachable_strategy] *)

(** The [for] loop over the field names, from the state [strategy]. *)
Fixpoint unreachable_fields (app_vars_section : value) (fields : list string)
  (strategy : list (string * value)) : outcome (list (string * value)) :=
  match fields with
  | [] => Ok strategy
  | field :: rest =>
      v <- py_getitem app_vars_section field ;;
      match v with
      | VNone => unreachable_fields app_vars_section rest strategy
      | _ =>
          z <- int_of_value v ;;
          unreachable_fields app_vars_section rest
            (dict_set (underscore_to_camelcase field) (VInt z) strategy)
      end
  end.

(** The [data] after the call. *)
Definition build_unreachable_strategy (app_vars : scope)
  (data : list (string * value)) : outcome (list (string * value)) :=
  app <- py_getitem (VDict app_vars) "APP" ;;
  app_vars_section <- py_getitem app "unreachable_strategy" ;;
  strategy <- unreachable_fields app_vars_section
                ["inactive_after_seconds"; "expunge_after_seconds"] [] ;;
  match strategy with
  | [] => Ok data
  | _ => Ok (dict_set "unreachableStrategy" (VDict strategy) data)
  end.

(** *** [build_fetch_config] *)

(** ['condition' not in fetch or evaluate_condition(fetch['condition'],
    tmp_vars)] for a dictionary [fetch]; a condition that is not a string
    cannot be joined to the template text. *)
Definition fetch_selected (fuel : nat) (tmp_vars : scope)
  (fetch : list (string * value)) : outcome bool :=
  match dict_get "condition" fetch with
  | None => Ok true
  | Some (VStr c) => evaluate_condition fuel c tmp_vars
  | Some VUndefined => Unmodelled
  | Some _ => Raise TypeError
  end.

(** The [for] loop, from the index [fetch_index] and the state
    [tmp_vars], [fetch_config].  An entry of the list that is a string, a
    sequence or [Undefined] is outside the fragment. *)
Fixpoint fetch_loop (fuel : nat) (items : list value) (fetch_index : nat)
  (tmp_vars : scope) (fetch_config : list value) : outcome (list value) :=
  match items with
  | [] => Ok fetch_config
  | fetch :: rest =>
      let tmp_vars' :=
        dict_set "fetch_index" (VInt (Z.of_nat fetch_index))
                 (dict_set "fetch" fetch tmp_vars) in
      match fetch with
      | VDict d =>
          sel <- fetch_selected fuel tmp_vars' d ;;
          if sel
          then fetch_loop fuel rest (S fetch_index) tmp_vars'
                 (fetch_config ++ [VDict (dict_remove "condition" d)])
          else fetch_loop fuel rest (S fetch_index) tmp_vars' fetch_config
      | VNone | VBool _ | VInt _ | VFloat _ => Raise TypeError
      | VStr _ | VList _ | VTuple _ | VUndefined => Unmodelled
      end
  end.

Definition build_fetch_config (fuel : nat) (app_vars : scope)
  (data : list (string * value)) : outcome (list (string * value)) :=
  app <- py_getitem (VDict app_vars) "APP" ;;
  fetch <- py_getitem app "fetch" ;;
  items <- py_iter fetch ;;
  fetch_config <- fetch_loop fuel items 0 app_vars [] ;;
  match fetch_config with
  | [] => Ok data
  | _ => Ok (dict_set "fetch" (VList fetch_config) data)
  end.

(** *** [build_health_checks] *)

(** The inner [for] loop over the field names, from the state
    [tmp_check]. *)
Fixpoint health_check_fields (check : value) (fields : list string)
  (tmp_check : list (string * value)) : outcome (list (string * value)) :=
  match fields with
  | [] => Ok tmp_check
  | field :: rest =>
      v <- py_getitem check field ;;
      match v with
      | VNone => health_check_fields check rest tmp_check
      | _ =>
          health_check_fields check rest
            (dict_set (underscore_to_camelcase field) v tmp_check)
      end
  end.

Definition health_check_field_names : list string :=
  ["grace_period_seconds"; "interval_seconds"; "timeout_seconds";
   "max_consecutive_failures"; "path"; "port_index"; "protocol"].

(** The body of the outer loop for one [check]: the rendered
    [tmp_check]. *)
Definition build_health_check (fuel : nat) (tmp_vars : scope) (check : value)
  : outcome value :=
  tmp_check <- health_check_fields check health_check_field_names [] ;;
  command <- py_getitem check "command" ;;
  let tmp_check' :=
    match command with
    | VNone => tmp_check
    | _ =>
        dict_set "command" (VDict [("value", command)])
                 (dict_set "protocol" (VStr "COMMAND") tmp_check)
    end in
  render_template fuel (VDict tmp_check') tmp_vars.

(** The outer loop, from the index [check_index] and the state
    [tmp_vars], [health_checks]; [body] stands for the body above. *)
Section HealthCheckLoop.

Variable body : scope -> value -> outcome value.

Fixpoint health_check_loop (items : list value) (check_index : nat)
  (tmp_vars : scope) (health_checks : list value) : outcome (list value) :=
  match items with
  | [] => Ok health_checks
  | check :: rest =>
      let tmp_vars' :=
        dict_set "check_index" (VInt (Z.of_nat check_index))
                 (dict_set "check" check tmp_vars) in
      tmp_check <- body tmp_vars' check ;;
      health_check_loop rest (S check_index) tmp_vars'
        (health_checks ++ [tmp_check])
  end.

End HealthCheckLoop.

Definition build_health_checks (fuel : nat) (app_vars : scope)
  (data : list (string * value)) : outcome (list (string * value)) :=
  app <- py_getitem (VDict app_vars) "APP" ;;
  checks <- py_getitem app "health_checks" ;;
  items <- py_iter checks ;;
  health_checks <- health_check_loop (build_health_check fuel) items 0
                     app_vars [] ;;
  match health_checks with
  | [] => Ok data
  | _ => Ok (dict_set "healthChecks" (VList health_checks) data)
  end.

(** Whether a fetch entry is kept, when its condition, if any, is the
    name of a variable of [app_vars]. *)
Definition fetch_kept (app_vars : scope) (d : list (string * value)) : bool :=
  match dict_get "condition" d with
  | None => true
  | Some (VStr n) => py_bool (resolve app_vars n)
  | Some _ => false
  end.

(** Such an entry: no condition, or a condition that is a variable name
    other than the loop's own [fetch] and [fetch_index]. *)
Definition fetch_condition_is_name (d : list (string * value)) : bool :=
  match dict_get "condition" d with
  | None => true
  | Some (VStr n) =>
      Jinja.is_variable_name n
      && negb (String.eqb n "fetch") && negb (String.eqb n "fetch_index")
  | Some _ => false
  end.

(** What [build_health_checks] makes of a [check]: a dictionary, with
    the protocol [COMMAND] when the check has a command. *)
Definition command_check_ok (check out : value) : Prop :=
  exists d,
    out = VDict d
    /\ forall command,
         py_getitem check "command" = Ok command ->
         command <> VNone ->
         dict_get "protocol" d = Some (VStr "COMMAND").

(** What the statements about the builders say of an entry. *)
Definition strategy_entry_ok (names : list string) (kv : string * value)
  : Prop :=
  In (fst kv) (map underscore_to_camelcase names)
  /\ exists z : Z, snd kv = VInt z.

Definition fetch_entry_ok (e : value) : Prop :=
  exists d, e = VDict d /\ dict_get "condition" d = None.

End Builders.

End Marathon.

(** * Properties *)

(** ** Strings *)

Section StringFacts.

Import PyStr.
Local Open Scope string_scope.

Lemma strip_prefix_app (p r : string) : strip_prefix p (p ++ r) = Some r.
Proof.
  induction p as [|c p IH]; simpl.
  - reflexivity.
  - rewrite Ascii.eqb_refl. exact IH.
Qed.

Lemma length_app (a b : string) :
  String.length (a ++ b) = String.length a + String.length b.
Proof.
  induction a as [|c a IH]; simpl; [reflexivity | now rewrite IH].
Qed.

Lemma eqb_cons_app_false (c : ascii) (p suf : string) :
  String.eqb (String c (p ++ suf)) suf = false.
Proof.
  destruct (String.eqb_spec (String c (p ++ suf)) suf) as [E|]; [|reflexivity].
  apply (f_equal String.length) in E. simpl in E.
  rewrite length_app in E. lia.
Qed.

Lemma strip_suffix_unfold (suf s : string) :
  strip_suffix suf s =
  if String.eqb s suf then Some EmptyString
  else match s with
       | EmptyString => None
       | String c s' => option_map (String c) (strip_suffix suf s')
       end.
Proof. destruct s; reflexivity. Qed.

Lemma strip_suffix_app (suf p : string) :
  strip_suffix suf (p ++ suf) = Some p.
Proof.
  induction p as [|c p IH].
  - simpl. rewrite strip_suffix_unfold, String.eqb_refl. reflexivity.
  - change (String c p ++ suf) with (String c (p ++ suf)).
    rewrite strip_suffix_unfold, eqb_cons_app_false, IH. reflexivity.
Qed.

Lemma strip_suffix_sound (suf s r : string) :
  strip_suffix suf s = Some r -> s = r ++ suf.
Proof.
  revert r. induction s as [|c s IH]; intros r H;
    rewrite strip_suffix_unfold in H.
  - destruct (String.eqb_spec EmptyString suf) as [<-|]; [|discriminate].
    now inversion H.
  - destruct (String.eqb_spec (String c s) suf) as [<-|].
    + now inversion H.
    + destruct (strip_suffix suf s) as [r'|]; [|discriminate].
      inversion H; subst. simpl. f_equal. now apply IH.
Qed.

Lemma last_char_app (a b : string) :
  b <> EmptyString -> last_char (a ++ b) = last_char b.
Proof.
  intros Hb. induction a as [|c a IH]; simpl; [reflexivity|].
  rewrite IH. destruct b as [|d b]; [contradiction|].
  simpl. destruct (last_char b); reflexivity.
Qed.

Lemma app_assoc_str (a b c : string) : (a ++ b) ++ c = a ++ (b ++ c).
Proof.
  induction a as [|x a IH]; simpl; [reflexivity | now rewrite IH].
Qed.

Lemma app_nil_r_str (a : string) : a ++ EmptyString = a.
Proof.
  induction a as [|x a IH]; simpl; [reflexivity | now rewrite IH].
Qed.

Lemma strip_suffix_last (c d : ascii) (p q : string) :
  c <> d ->
  strip_suffix (String d EmptyString) (p ++ q ++ String c EmptyString) = None.
Proof.
  intros Hcd.
  destruct (strip_suffix _ _) as [r|] eqn:E; [|reflexivity].
  apply strip_suffix_sound in E.
  apply (f_equal last_char) in E.
  rewrite <- app_assoc_str in E.
  rewrite (last_char_app (p ++ q)), (last_char_app r) in E by discriminate.
  simpl in E. congruence.
Qed.

Lemma span_all (f : ascii -> bool) (a : string) (c : ascii) (r : string) :
  all_chars f a = true -> f c = false ->
  span f (a ++ String c r) = (a, String c r).
Proof.
  intros Ha Hc. induction a as [|x a IH]; simpl in *.
  - now rewrite Hc.
  - apply andb_true_iff in Ha as [Hx Ha]. rewrite Hx, (IH Ha). reflexivity.
Qed.

(** *** [int(str(z))] *)

Lemma lstrip_nospace (s : string) :
  all_chars (fun c => negb (isspace c)) s = true -> lstrip s = s.
Proof.
  destruct s as [|c s]; simpl; [reflexivity|].
  intros H. apply andb_true_iff in H as [Hc _].
  apply negb_true_iff in Hc. now rewrite Hc.
Qed.

Lemma rstrip_nospace (s : string) :
  all_chars (fun c => negb (isspace c)) s = true -> rstrip s = s.
Proof.
  induction s as [|c s IH]; simpl; [reflexivity|].
  intros H. apply andb_true_iff in H as [Hc Hs].
  apply negb_true_iff in Hc. rewrite (IH Hs), Hc.
  destruct s; reflexivity.
Qed.

Lemma strip_nospace (s : string) :
  all_chars (fun c => negb (isspace c)) s = true -> strip s = s.
Proof.
  intros H. unfold strip. rewrite (lstrip_nospace _ H). now apply rstrip_nospace.
Qed.

Lemma digits_of_uint (d : uint) :
  all_chars is_dec_digit (NilEmpty.string_of_uint d) = true.
Proof. induction d; simpl; auto. Qed.

Lemma all_chars_impl (f g : ascii -> bool) (s : string) :
  (forall c, f c = true -> g c = true) ->
  all_chars f s = true -> all_chars g s = true.
Proof.
  intros Hfg. induction s as [|c s IH]; simpl; [reflexivity|].
  intros H. apply andb_true_iff in H as [Hc Hs].
  now rewrite (Hfg _ Hc), (IH Hs).
Qed.

Lemma digit_cases (c : ascii) :
  is_dec_digit c = true ->
  isspace c = false /\ Ascii.eqb c "_" = false /\ Ascii.eqb c LF = false.
Proof.
  destruct c as [[|] [|] [|] [|] [|] [|] [|] [|]]; cbv; intros H;
    try discriminate; repeat split.
Qed.

Lemma drop_underscores_digits (b : bool) (s : string) :
  all_chars is_dec_digit s = true ->
  (s <> EmptyString \/ b = true) ->
  drop_underscores b s = Some s.
Proof.
  revert b. induction s as [|c s IH]; intros b Hs Hne.
  - simpl. destruct Hne as [Hne | ->]; [contradiction | reflexivity].
  - cbn [all_chars] in Hs. apply andb_true_iff in Hs as [Hc Hs].
    destruct (digit_cases c Hc) as (_ & Hu & _).
    cbn [drop_underscores]. rewrite Hu, (IH true Hs) by now right.
    reflexivity.
Qed.

Lemma digits_value_of_uint (d : uint) :
  d <> Nil ->
  digits_value (NilEmpty.string_of_uint d) = Some (Z.of_uint d).
Proof.
  intros Hd. unfold digits_value.
  rewrite drop_underscores_digits.
  - now rewrite NilEmpty.usu.
  - apply digits_of_uint.
  - left. destruct d; simpl; congruence.
Qed.

Lemma strip_digits (d : uint) :
  strip (NilEmpty.string_of_uint d) = NilEmpty.string_of_uint d.
Proof.
  apply strip_nospace.
  apply (all_chars_impl is_dec_digit); [|apply digits_of_uint].
  intros c Hc. destruct (digit_cases c Hc) as (-> & _). reflexivity.
Qed.

Lemma int_of_str_digits (d : uint) :
  d <> Nil ->
  int_of_str (NilEmpty.string_of_uint d) = Some (Z.of_uint d).
Proof.
  intros Hd. unfold int_of_str. rewrite strip_digits.
  rewrite <- (digits_value_of_uint d Hd).
  destruct d; reflexivity.
Qed.

Lemma int_of_str_neg_digits (d : uint) :
  d <> Nil ->
  int_of_str (String "-" (NilEmpty.string_of_uint d)) = Some (- Z.of_uint d)%Z.
Proof.
  intros Hd. unfold int_of_str.
  assert (E : strip (String "-" (NilEmpty.string_of_uint d))
              = String "-" (NilEmpty.string_of_uint d)).
  { apply strip_nospace. cbn [all_chars].
    apply andb_true_iff. split; [reflexivity|].
    apply (all_chars_impl is_dec_digit); [|apply digits_of_uint].
    intros c Hc. destruct (digit_cases c Hc) as (-> & _). reflexivity. }
  rewrite E. rewrite (digits_value_of_uint d Hd). reflexivity.
Qed.

Lemma int_of_str_of_int (z : Z) : int_of_str (str_of_int z) = Some z.
Proof.
  unfold str_of_int. destruct z as [|p|p]; cbn [Z.to_int NilZero.string_of_int].
  - reflexivity.
  - assert (Hd : Pos.to_uint p <> Nil) by apply DecimalPos.Unsigned.to_uint_nonnil.
    unfold NilZero.string_of_uint.
    destruct (Pos.to_uint p) eqn:E; try contradiction;
      rewrite <- E in *; rewrite (int_of_str_digits _ Hd);
      unfold Z.of_uint; now rewrite DecimalPos.Unsigned.of_to.
  - assert (Hd : Pos.to_uint p <> Nil) by apply DecimalPos.Unsigned.to_uint_nonnil.
    unfold NilZero.string_of_uint.
    destruct (Pos.to_uint p) eqn:E; try contradiction;
      rewrite <- E in *; rewrite (int_of_str_neg_digits _ Hd);
      unfold Z.of_uint; now rewrite DecimalPos.Unsigned.of_to.
Qed.

Lemma str_of_int_single_line (z : Z) : has_char LF (str_of_int z) = false.
Proof.
  assert (G : forall s, all_chars is_dec_digit s = true -> has_char LF s = false).
  { induction s as [|c s IH]; simpl; [reflexivity|].
    intros H. apply andb_true_iff in H as [Hc Hs].
    destruct (digit_cases c Hc) as (_ & _ & ->). now apply IH. }
  unfold str_of_int.
  destruct z as [|p|p]; cbn [Z.to_int NilZero.string_of_int]; try reflexivity.
  - unfold NilZero.string_of_uint.
    destruct (Pos.to_uint p) eqn:E; try reflexivity;
      rewrite <- E; apply G, digits_of_uint.
  - cbn [has_char]. replace (Ascii.eqb "-" LF) with false by reflexivity.
    unfold NilZero.string_of_uint.
    destruct (Pos.to_uint p) eqn:E; try reflexivity;
      rewrite <- E; apply G, digits_of_uint.
Qed.

End StringFacts.

(** ** Type markers *)

Section MarkerFacts.

Context {F : PyFloat}.

Import PyStr.
Local Open Scope string_scope.

Lemma marker_match_wrap (ty p : string) :
  ty <> EmptyString ->
  all_chars is_lower_az ty = true ->
  has_char LF p = false ->
  marker_match ("__" ++ ty ++ "__" ++ p ++ "__" ++ ty ++ "__") = Some (ty, p).
Proof.
  intros Hne Hty Hp. unfold marker_match.
  rewrite strip_prefix_app.
  change ("__" ++ p ++ "__" ++ ty ++ "__")
    with (String "_" ("_" ++ p ++ "__" ++ ty ++ "__")).
  rewrite (span_all is_lower_az ty "_" _ Hty eq_refl).
  destruct ty as [|t0 ty']; [contradiction|].
  set (ty := String t0 ty') in *.
  change (strip_prefix "__" (String "_" ("_" ++ p ++ "__" ++ ty ++ "__")))
    with (Some (p ++ "__" ++ ty ++ "__")).
  cbv iota beta.
  assert (E : strip_suffix (String LF "") (p ++ "__" ++ ty ++ "__") = None).
  { replace ("__" ++ ty ++ "__") with (("__" ++ ty ++ "_") ++ "_").
    - apply strip_suffix_last. discriminate.
    - simpl. rewrite app_assoc_str. reflexivity. }
  rewrite E.
  rewrite (strip_suffix_app ("__" ++ ty ++ "__") p), Hp.
  reflexivity.
Qed.

Lemma marker_match_int (p : string) :
  has_char LF p = false ->
  marker_match ("__int__" ++ p ++ "__int__") = Some ("int", p).
Proof. intros Hp. now apply (marker_match_wrap "int" p). Qed.

Lemma marker_match_float (p : string) :
  has_char LF p = false ->
  marker_match ("__float__" ++ p ++ "__float__") = Some ("float", p).
Proof. intros Hp. now apply (marker_match_wrap "float" p). Qed.

Lemma marker_match_bool (p : string) :
  has_char LF p = false ->
  marker_match ("__bool__" ++ p ++ "__bool__") = Some ("bool", p).
Proof. intros Hp. now apply (marker_match_wrap "bool" p). Qed.

(** What [type_fixup] makes of a payload, for each marker type. *)
Lemma type_fixup_int (p : string) :
  has_char LF p = false ->
  type_fixup (VStr ("__int__" ++ p ++ "__int__")) =
  match int_of_str p with
  | Some z => Ok (VInt z)
  | None => Raise ValueError
  end.
Proof. intros Hp. unfold type_fixup. now rewrite (marker_match_int p Hp). Qed.

Lemma type_fixup_float (p : string) :
  has_char LF p = false ->
  type_fixup (VStr ("__float__" ++ p ++ "__float__")) =
  match float_of_str p with
  | Some f => Ok (VFloat f)
  | None => Raise ValueError
  end.
Proof. intros Hp. unfold type_fixup. now rewrite (marker_match_float p Hp). Qed.

Lemma type_fixup_bool (p : string) :
  has_char LF p = false ->
  type_fixup (VStr ("__bool__" ++ p ++ "__bool__")) =
  Ok (VBool (lower p =? "true")).
Proof.
  intros Hp. unfold type_fixup. rewrite (marker_match_bool p Hp).
  cbn. now destruct (lower p =? "true").
Qed.

(** C2.  Round trip through the output filters: for a literal whose text
    [p] is on one line, [type_fixup] maps what [output_int],
    [output_float] and [output_bool] make of it to [int(p)], [float(p)]
    and the boolean [p.lower() == 'true']; an integer and a boolean come
    back as themselves, and so does a float whose [str] is on one line
    and is read back by [float]; a value that is not a string matching the marker
    pattern is returned unchanged. *)
Theorem type_fixup_round_trip :
  (forall (arg : value) (p : string),
      py_str arg = Ok p -> has_char LF p = false ->
      (s <- filter_output_int arg ;; type_fixup (VStr s))
      = match int_of_str p with
        | Some z => Ok (VInt z)
        | None => Raise ValueError
        end
      /\ (s <- filter_output_float arg ;; type_fixup (VStr s))
         = match float_of_str p with
           | Some f => Ok (VFloat f)
           | None => Raise ValueError
           end
      /\ (s <- filter_output_bool arg ;; type_fixup (VStr s))
         = Ok (VBool (lower p =? "true")))
  /\ (forall z : Z,
         (s <- filter_output_int (VInt z) ;; type_fixup (VStr s))
         = Ok (VInt z))
  /\ (forall b : bool,
         (s <- filter_output_bool (VBool b) ;; type_fixup (VStr s))
         = Ok (VBool b))
  /\ (forall f : pyfloat,
         has_char LF (str_of_float f) = false ->
         float_of_str (str_of_float f) = Some f ->
         (s <- filter_output_float (VFloat f) ;; type_fixup (VStr s))
         = Ok (VFloat f))
  /\ (forall v : value,
         (forall s, v = VStr s -> marker_match s = None) ->
         type_fixup v = Ok v).
Proof.
  split; [|split; [|split; [|split]]].
  - intros arg p Harg Hp.
    unfold filter_output_int, filter_output_float, filter_output_bool.
    rewrite Harg. cbn [bind].
    rewrite (type_fixup_int p Hp), (type_fixup_float p Hp),
      (type_fixup_bool p Hp).
    repeat split.
  - intros z. unfold filter_output_int. cbn [py_str bind].
    rewrite (type_fixup_int _ (str_of_int_single_line z)).
    now rewrite int_of_str_of_int.
  - intros [|]; reflexivity.
  - intros f Hf Hrt. unfold filter_output_float. cbn [py_str bind].
    now rewrite (type_fixup_float _ Hf), Hrt.
  - intros v Hv. destruct v; try reflexivity.
    unfold type_fixup. now rewrite (Hv s eq_refl).
Qed.

End MarkerFacts.

(** ** The lexer and the parser *)

Section JinjaFacts.

Import PyStr Jinja.
Local Open Scope string_scope.

Lemma all_chars_app (f : ascii -> bool) (a b : string) :
  all_chars f (a ++ b) = all_chars f a && all_chars f b.
Proof.
  induction a as [|c a IH]; simpl; [reflexivity|].
  now rewrite IH, andb_assoc.
Qed.

Lemma not_linebreak_cases (c : ascii) :
  is_linebreak c = false ->
  Ascii.eqb c CR = false /\ Ascii.eqb c LF = false
  /\ is_odd_linebreak c = false.
Proof.
  destruct c as [[|] [|] [|] [|] [|] [|] [|] [|]]; cbv; intros H;
    try discriminate; repeat split.
Qed.

Lemma name_char_not_linebreak (c : ascii) :
  is_name_char c = true -> is_linebreak c = false.
Proof.
  destruct c as [[|] [|] [|] [|] [|] [|] [|] [|]]; cbv; intros H;
    try discriminate; reflexivity.
Qed.

Lemma name_char_cases (c : ascii) :
  is_name_char c = true ->
  is_tag_space c = false /\ c <> "{"%char /\ c <> "|"%char.
Proof.
  destruct c as [[|] [|] [|] [|] [|] [|] [|] [|]]; cbv; intros H;
    try discriminate; repeat split; discriminate.
Qed.

Lemma no_linebreak_normalize (s : string) :
  no_linebreak s = true -> normalize_newlines s = s.
Proof.
  unfold no_linebreak.
  induction s as [|c s IH]; [reflexivity|].
  cbn [all_chars]. intros H. apply andb_true_iff in H as [Hc Hs].
  apply negb_true_iff in Hc.
  destruct (not_linebreak_cases c Hc) as (H1 & H2 & _).
  cbn [normalize_newlines]. rewrite H1, H2, (IH Hs). reflexivity.
Qed.

Lemma no_linebreak_not_odd (s : string) :
  no_linebreak s = true -> has_odd_linebreak s = false.
Proof.
  unfold no_linebreak.
  induction s as [|c s IH]; [reflexivity|].
  cbn [all_chars has_odd_linebreak]. intros H.
  apply andb_true_iff in H as [Hc Hs]. apply negb_true_iff in Hc.
  destruct (not_linebreak_cases c Hc) as (_ & _ & ->). now apply IH.
Qed.

Lemma no_syntax_cons (c : ascii) (s : string) :
  has_template_syntax (String c s) = false ->
  has_template_syntax s = false
  /\ (c = "{"%char ->
      match s with
      | EmptyString => True
      | String c' _ =>
          Ascii.eqb c' "{" = false /\ Ascii.eqb c' "%" = false
          /\ Ascii.eqb c' "#" = false
      end).
Proof.
  unfold has_template_syntax. cbn [contains].
  intros H.
  apply orb_false_iff in H as [H H3]. apply orb_false_iff in H as [H1 H2].
  apply orb_false_iff in H1 as [S1 C1].
  apply orb_false_iff in H2 as [S2 C2].
  apply orb_false_iff in H3 as [S3 C3].
  split; [now rewrite C1, C2, C3|].
  intros ->. destruct s as [|c' s']; [exact I|].
  cbn in S1, S2, S3.
  repeat split.
  - destruct (Ascii.eqb_spec c' "{"); [subst; discriminate | reflexivity].
  - destruct (Ascii.eqb_spec c' "%"); [subst; discriminate | reflexivity].
  - destruct (Ascii.eqb_spec c' "#"); [subst; discriminate | reflexivity].
Qed.

(** Text without template syntax is one data token. *)
Lemma lex_text (T acc : string) (out : list ttok) :
  has_template_syntax T = false ->
  lex (InData acc) out T = Some (out ++ emit_data (acc ++ T))%list.
Proof.
  revert acc. induction T as [|c T IH]; intros acc H.
  - cbn [lex]. now rewrite app_nil_r_str.
  - destruct (no_syntax_cons c T H) as [HT Hc].
    assert (Hnext : lex (InData (push_char acc c)) out T
                    = Some (out ++ emit_data (acc ++ String c T))%list).
    { rewrite (IH _ HT). unfold push_char.
      now rewrite app_assoc_str. }
    cbn [lex]. destruct (Ascii.eqb_spec c "{") as [E|_]; [|exact Hnext].
    specialize (Hc E). destruct T as [|c' T']; [exact Hnext|].
    destruct Hc as (-> & -> & ->). exact Hnext.
Qed.

Lemma parse_template_data (T : string) :
  parse_template (emit_data T) =
  Some (match T with EmptyString => [] | _ => [NData T] end).
Proof. destruct T; reflexivity. Qed.

Lemma from_string_text (T : string) :
  has_template_syntax T = false ->
  no_linebreak T = true ->
  from_string T = Some (match T with EmptyString => [] | _ => [NData T] end).
Proof.
  intros Hs Hl. unfold from_string.
  rewrite (no_linebreak_not_odd T Hl), (no_linebreak_normalize T Hl).
  rewrite (lex_text T "" [] Hs). cbn [String.append app].
  apply parse_template_data.
Qed.

(** *** Text with line breaks *)








(** A name inside a tag is read up to the character that follows it. *)
Lemma lex_name (n : string) :
  forall (block : bool) (toks : list etok) (cur : string) (out : list ttok)
         (c : ascii) (rest : string),
  all_chars is_name_char n = true ->
  (cur <> EmptyString \/
   match n with String d _ => is_digit d = false | EmptyString => True end) ->
  lex (InTag block toks cur) out (n ++ String c rest)
  = lex (InTag block toks (cur ++ n)) out (String c rest).
Proof.
  induction n as [|d n IH]; intros block toks cur out c rest Hn Hcur.
  - now rewrite app_nil_r_str.
  - cbn [all_chars] in Hn. apply andb_true_iff in Hn as [Hd Hn].
    change (String d n ++ String c rest) with (String d (n ++ String c rest)).
    cbn [lex]. rewrite Hd.
    assert (Hstep : lex (InTag block toks (push_char cur d)) out
                        (n ++ String c rest)
                    = lex (InTag block toks (cur ++ String d n)) out
                        (String c rest)).
    { rewrite IH; [|exact Hn|].
      - unfold push_char. now rewrite app_assoc_str.
      - left. unfold push_char. destruct cur; discriminate. }
    destruct cur as [|x cur']; [|exact Hstep].
    destruct Hcur as [Hcur | Hdig]; [contradiction|].
    rewrite Hdig. exact Hstep.
Qed.

Lemma variable_name_inv (n : string) :
  is_variable_name n = true ->
  all_chars is_name_char n = true
  /\ (exists c r, n = String c r /\ is_digit c = false)
  /\ primary n = Some (EName n).
Proof.
  unfold is_variable_name. intros H.
  apply andb_true_iff in H as [H H3]. apply andb_true_iff in H as [H1 H2].
  split; [exact H1|]. split.
  - destruct n as [|c r]; [discriminate|].
    exists c, r. split; [reflexivity|]. now apply negb_true_iff.
  - unfold primary in *.
    destruct (mem_string n ["true"; "True"]); [discriminate|].
    destruct (mem_string n ["false"; "False"]); [discriminate|].
    destruct (mem_string n ["none"; "None"]); [discriminate|].
    destruct (mem_string n reserved_names); [discriminate|].
    reflexivity.
Qed.

Lemma variable_name_no_linebreak (n : string) :
  all_chars is_name_char n = true -> no_linebreak n = true.
Proof.
  apply all_chars_impl. intros c Hc.
  now rewrite (name_char_not_linebreak c Hc).
Qed.

(** Inside a tag: a space, a variable name, a space. *)
Lemma lex_tag_name (n : string) (block : bool) (toks : list etok)
  (out : list ttok) (rest : string) :
  is_variable_name n = true ->
  lex (InTag block toks "") out (String " " (n ++ String " " rest))
  = lex (InTag block (toks ++ [TName n]) "") out rest.
Proof.
  intros H. destruct (variable_name_inv n H) as (Hn & (c & r & En & Hc) & _).
  cbn [lex]. change (is_name_char " ") with false.
  change (is_tag_space " ") with true. cbv iota. cbn [flush_name].
  rewrite (lex_name n block toks "" out " " rest Hn).
  2:{ right. rewrite En. exact Hc. }
  cbn [String.append lex]. change (is_name_char " ") with false.
  change (is_tag_space " ") with true. cbv iota.
  rewrite En. reflexivity.
Qed.

Lemma lex_open_output (acc : string) (out : list ttok) (s : string) :
  lex (InData acc) out (String "{" (String "{" s))
  = lex (InTag false [] "") (out ++ emit_data acc) s.
Proof. reflexivity. Qed.

Lemma lex_open_if (acc : string) (out : list ttok) (s : string) :
  lex (InData acc) out (String "{" (String "%" (String " " (String "i"
        (String "f" s)))))
  = lex (InTag true [] "if") (out ++ emit_data acc) s.
Proof. reflexivity. Qed.

Lemma lex_tag_name_after (n : string) (block : bool) (toks : list etok)
  (cur : string) (out : list ttok) (rest : string) :
  is_variable_name n = true ->
  lex (InTag block toks cur) out (String " " (n ++ String " " rest))
  = lex (InTag block (flush_name cur toks ++ [TName n]) "") out rest.
Proof.
  intros H. rewrite <- (lex_tag_name n block (flush_name cur toks) out rest H).
  reflexivity.
Qed.

Lemma lex_close (block : bool) (toks : list etok) (out : list ttok)
  (s : string) :
  lex (InTag block toks "") out
      (String (if block then "%" else "}")%char (String "}" s))
  = match close_tag block toks with
    | Some t => lex (InData "") (out ++ [t]) s
    | None => None
    end.
Proof. destruct block; reflexivity. Qed.

Lemma close_output_name (n : string) :
  is_variable_name n = true ->
  close_tag false [TName n] = Some (TOut (EName n)).
Proof.
  intros H. destruct (variable_name_inv n H) as (_ & _ & Hp).
  unfold close_tag, parse_expr. now rewrite Hp.
Qed.

Lemma close_if_name (n : string) :
  is_variable_name n = true ->
  close_tag true [TName "if"; TName n] = Some (TIf (EName n)).
Proof.
  intros H. destruct (variable_name_inv n H) as (_ & _ & Hp).
  unfold close_tag, parse_block, parse_expr.
  change ("if" =? "if") with true. cbv iota. now rewrite Hp.
Qed.

(** The template [{{ n }}] for a variable name [n]. *)
Lemma from_string_output (n : string) :
  is_variable_name n = true ->
  from_string ("{{ " ++ n ++ " }}") = Some [NOutput (EName n)].
Proof.
  intros H. destruct (variable_name_inv n H) as (Hn & _ & Hp).
  assert (Hl : no_linebreak ("{{ " ++ n ++ " }}") = true).
  { unfold no_linebreak. rewrite !all_chars_app.
    fold (no_linebreak n). now rewrite (variable_name_no_linebreak n Hn). }
  unfold from_string.
  rewrite (no_linebreak_not_odd _ Hl), (no_linebreak_normalize _ Hl).
  change ("{{ " ++ n ++ " }}")
    with (String "{" (String "{" (String " " (n ++ String " " "}}")))).
  rewrite lex_open_output, (lex_tag_name n false _ _ "}}" H).
  rewrite (lex_close false).
  change ([] ++ [TName n])%list with [TName n].
  rewrite (close_output_name n H).
  reflexivity.
Qed.

(** The template that [evaluate_condition] builds around a variable
    name. *)
Lemma from_string_condition (n : string) :
  is_variable_name n = true ->
  from_string ("{% if " ++ n ++ " %}True{% else %}False{% endif %}")
  = Some [NIf (EName n) [NData "True"] [NData "False"]].
Proof.
  intros H. destruct (variable_name_inv n H) as (Hn & _ & Hp).
  assert (Hl : no_linebreak
                 ("{% if " ++ n ++ " %}True{% else %}False{% endif %}") = true).
  { unfold no_linebreak. rewrite !all_chars_app.
    fold (no_linebreak n). now rewrite (variable_name_no_linebreak n Hn). }
  unfold from_string.
  rewrite (no_linebreak_not_odd _ Hl), (no_linebreak_normalize _ Hl).
  change ("{% if " ++ n ++ " %}True{% else %}False{% endif %}")
    with (String "{" (String "%" (String " " (String "i" (String "f"
            (String " " (n ++ String " " "%}True{% else %}False{% endif %}"))))))).
  rewrite lex_open_if.
  rewrite (lex_tag_name_after n true _ _ _
             "%}True{% else %}False{% endif %}" H).
  rewrite (lex_close true).
  change (flush_name "if" [] ++ [TName n])%list with [TName "if"; TName n].
  rewrite (close_if_name n H).
  vm_compute. reflexivity.
Qed.

End JinjaFacts.

(** ** Rendering *)

Section RenderFacts.

Context {F : PyFloat}.

Import PyStr Jinja.
Local Open Scope string_scope.

Lemma bind_ret {A : Type} (m : outcome A) : (x <- m ;; Ok x) = m.
Proof. now destruct m. Qed.

Lemma bind_raise_inv {A B : Type} (m : outcome A) (k : A -> outcome B)
  (e : exn) :
  (x <- m ;; k x) = Raise e ->
  m = Raise e \/ exists a, m = Ok a /\ k a = Raise e.
Proof.
  destruct m as [a| | |]; simpl; intros H; try discriminate.
  - right. exists a. now split.
  - left. now inversion H.
Qed.

Lemma render_node_if (render : string -> outcome string) (ctx : scope)
  (t : expr) (b e : list node) :
  render_node render ctx (NIf t b e)
  = (v <- eval_expr ctx t ;;
     if py_bool v then render_nodes render ctx b
     else render_nodes render ctx e).
Proof. reflexivity. Qed.

(** *** Rendering raises nothing of its own *)

Lemma py_str_no_raise (v : value) (e : exn) : py_str v <> Raise e.
Proof. destruct v as [| [|] | | | | | | |]; discriminate. Qed.

Lemma eval_expr_no_raise (ctx : scope) (x : expr) (e : exn) :
  eval_expr ctx x <> Raise e.
Proof.
  induction x as [n | b | | x IH f]; cbn [eval_expr]; try discriminate.
  intros H. apply bind_raise_inv in H as [H | (v & _ & H)]; [now apply IH in H|].
  apply bind_raise_inv in H as [H | (s & _ & H)]; [|discriminate].
  destruct f; cbn in H;
    apply bind_raise_inv in H as [H | (s & _ & H)];
    solve [now apply py_str_no_raise in H | discriminate].
Qed.

Section NoRaise.

Variable render : string -> outcome string.
Variable ctx : scope.
Hypothesis render_no_raise : forall s e, render s <> Raise e.

Lemma finalize_no_raise (v : value) (e : exn) : finalize render v <> Raise e.
Proof.
  destruct v; cbn [finalize]; try discriminate.
  destruct (contains "{{" s || contains "{%" s); [|discriminate].
  intros H. apply bind_raise_inv in H as [H | (r & _ & H)];
    [now apply render_no_raise in H | discriminate].
Qed.

Lemma render_nodes_no_raise (ns : list node) :
  Forall (fun n => forall e, render_node render ctx n <> Raise e) ns ->
  forall e, render_nodes render ctx ns <> Raise e.
Proof.
  induction 1 as [|n ns Hn _ IH]; intros e; cbn [render_nodes];
    [discriminate|].
  intros H. apply bind_raise_inv in H as [H | (a & _ & H)];
    [now apply Hn in H|].
  apply bind_raise_inv in H as [H | (b & _ & H)];
    [now apply IH in H | discriminate].
Qed.

Lemma render_node_no_raise (n : node) (e : exn) :
  render_node render ctx n <> Raise e.
Proof.
  revert e. induction n as [s | x | t b el Hb Hel] using node_ind'; intros e.
  - discriminate.
  - cbn [render_node]. intros H.
    apply bind_raise_inv in H as [H | (v & _ & H)];
      [now apply eval_expr_no_raise in H|].
    apply bind_raise_inv in H as [H | (v' & _ & H)];
      [now apply finalize_no_raise in H | now apply py_str_no_raise in H].
  - rewrite render_node_if. intros H.
    apply bind_raise_inv in H as [H | (v & _ & H)];
      [now apply eval_expr_no_raise in H|].
    destruct (py_bool v);
      revert H; now apply render_nodes_no_raise.
Qed.

End NoRaise.

Lemma render_source_no_raise (fuel : nat) (src : string) (ctx : scope)
  (e : exn) :
  render_source fuel src ctx <> Raise e.
Proof.
  revert src e. induction fuel as [|fuel IH]; intros src e;
    cbn [render_source]; [discriminate|].
  destruct (from_string src) as [ns|]; [|discriminate].
  apply render_nodes_no_raise.
  apply Forall_forall. intros n _ e'.
  apply render_node_no_raise. intros s e''. apply IH.
Qed.

Lemma env_render_raise (fuel : nat) (src : string) (args : scope) (e : exn) :
  env_render fuel src args = Raise e -> e = TypeError.
Proof.
  unfold env_render. destruct (from_string src); [|discriminate].
  destruct (has_key "self" args).
  - now intros [= <-].
  - intros H. now apply render_source_no_raise in H.
Qed.

Lemma env_render_no_self (fuel : nat) (src : string) (args : scope)
  (ns : list node) :
  has_key "self" args = false ->
  from_string src = Some ns ->
  env_render fuel src args = render_source fuel src args.
Proof. intros H E. unfold env_render. now rewrite E, H. Qed.

(** *** Text, and the output of one variable *)

Lemma render_source_text (fuel : nat) (T : string) (ctx : scope) :
  has_template_syntax T = false ->
  no_linebreak T = true ->
  render_source (S fuel) T ctx = Ok T.
Proof.
  intros Hs Hl. cbn [render_source]. rewrite (from_string_text T Hs Hl).
  destruct T; [reflexivity|].
  cbn [render_nodes render_node bind]. now rewrite app_nil_r_str.
Qed.


Lemma render_source_output (fuel : nat) (n : string) (ctx : scope) :
  is_variable_name n = true ->
  render_source (S fuel) (output_of n) ctx
  = (v <- finalize (fun s => render_source fuel s ctx) (resolve ctx n) ;;
     py_str v).
Proof.
  intros H. cbn [render_source]. unfold output_of.
  rewrite (from_string_output n H).
  cbn [render_nodes render_node eval_expr bind].
  destruct (finalize _ (resolve ctx n)) as [v| | |]; cbn [bind]; try reflexivity.
  destruct (py_str v) as [s| | |]; cbn [bind]; try reflexivity.
  now rewrite app_nil_r_str.
Qed.

Lemma output_of_is_template (n : string) :
  contains "{{" (output_of n) || contains "{%" (output_of n) = true.
Proof. reflexivity. Qed.

Lemma render_source_indirect (fuel : nat) (n m : string) (ctx : scope) :
  is_variable_name n = true ->
  dict_get n ctx = Some (VStr (output_of m)) ->
  render_source (S fuel) (output_of n) ctx
  = render_source fuel (output_of m) ctx.
Proof.
  intros H E. rewrite (render_source_output fuel n ctx H).
  unfold resolve. rewrite E. cbn [finalize].
  rewrite output_of_is_template.
  now destruct (render_source fuel (output_of m) ctx).
Qed.

Lemma from_string_output_of (n : string) :
  is_variable_name n = true ->
  from_string (output_of n) = Some [NOutput (EName n)].
Proof. apply from_string_output. Qed.

(** A chain of [k] indirections resolves as soon as [k + 1] nested
    renderings are allowed. *)
Lemma indirection_resolves (args : scope) (n : string) (k : nat) (t : string) :
  indirection args n k t ->
  forall fuel, k < fuel -> render_source fuel (output_of n) args = Ok t.
Proof.
  induction 1 as [n t Hn E Ht | n m k t Hn E _ IH]; intros fuel Hk.
  - destruct fuel as [|fuel]; [lia|].
    rewrite (render_source_output fuel n args Hn).
    unfold resolve. rewrite E. cbn [finalize]. now rewrite Ht.
  - destruct fuel as [|fuel]; [lia|].
    rewrite (render_source_indirect fuel n m args Hn E).
    apply IH. lia.
Qed.

(** With [k] nested renderings or fewer, the chain is cut short. *)
Lemma indirection_exhausts (args : scope) (n : string) (k : nat) (t : string) :
  indirection args n k t ->
  forall fuel, fuel <= k -> render_source fuel (output_of n) args = OutOfFuel.
Proof.
  induction 1 as [n t Hn E Ht | n m k t Hn E _ IH]; intros fuel Hk.
  - destruct fuel as [|fuel]; [reflexivity | lia].
  - destruct fuel as [|fuel]; [reflexivity|].
    rewrite (render_source_indirect fuel n m args Hn E).
    apply IH. lia.
Qed.

(** Names that lead to one another for ever: no depth is enough. *)
Lemma cycle_out_of_fuel (args : scope) (cyc : string -> Prop) :
  (forall n, cyc n ->
     is_variable_name n = true
     /\ exists m, cyc m /\ dict_get n args = Some (VStr (output_of m))) ->
  forall fuel n, cyc n -> render_source fuel (output_of n) args = OutOfFuel.
Proof.
  intros Hcyc. induction fuel as [|fuel IH]; intros n Hn; [reflexivity|].
  destruct (Hcyc n Hn) as (Hv & m & Hm & E).
  rewrite (render_source_indirect fuel n m args Hv E).
  now apply IH.
Qed.

End RenderFacts.

(** ** [Template]: strings *)

Section TemplateFacts.

Context {F : PyFloat}.

Import PyStr Jinja.
Local Open Scope string_scope.

Lemma render_template_output (fuel : nat) (n : string) (args : scope) :
  is_variable_name n = true ->
  has_key "self" args = false ->
  render_template fuel (VStr (output_of n)) args
  = (r <- render_source fuel (output_of n) args ;; Ok (VStr r)).
Proof.
  intros Hn Hs. cbn [render_template].
  now rewrite (env_render_no_self fuel _ args _ Hs (from_string_output_of n Hn)).
Qed.

Lemma indirection_name (args : scope) (n : string) (k : nat) (t : string) :
  indirection args n k t -> is_variable_name n = true.
Proof. now destruct 1. Qed.

(** C1, as the code has it.  The re-rendering of [finalize] has no depth
    limit of its own and no [RenderingDepthExceededError]: the only bound
    is the interpreter's recursion limit.  A chain of [k] indirections
    resolves fully when the interpreter allows [k + 1] nested renderings
    and is ended by [RecursionError] when it allows fewer; on variables
    that lead to one another in a cycle the rendering is ended by
    [RecursionError] whatever the limit is, and never gives a result. *)
Theorem finalize_bounded_by_interpreter_only :
  (forall (args : scope) (n : string) (k : nat) (t : string) (limit : nat),
      has_key "self" args = false ->
      indirection args n k t ->
      (k < limit ->
       render_template_limited limit (VStr (output_of n)) args
       = Ok (VStr t))
      /\ (limit <= k ->
          render_template_limited limit (VStr (output_of n)) args
          = Raise RecursionError))
  /\ (forall (args : scope) (cyc : string -> Prop),
         has_key "self" args = false ->
         (forall n, cyc n ->
            is_variable_name n = true
            /\ exists m, cyc m
                         /\ dict_get n args = Some (VStr (output_of m))) ->
         forall (n : string) (limit : nat),
           cyc n ->
           render_template_limited limit (VStr (output_of n)) args
           = Raise RecursionError).
Proof.
  unfold render_template_limited. split.
  - intros args n k t limit Hs Hi.
    rewrite (render_template_output limit n args (indirection_name _ _ _ _ Hi) Hs).
    split; intros Hk.
    + now rewrite (indirection_resolves args n k t Hi limit Hk).
    + now rewrite (indirection_exhausts args n k t Hi limit Hk).
  - intros args cyc Hs Hcyc n limit Hn.
    destruct (Hcyc n Hn) as (Hv & _).
    rewrite (render_template_output limit n args Hv Hs).
    now rewrite (cycle_out_of_fuel args cyc Hcyc limit n Hn).
Qed.

(** C5, as the code has it.  A template that outputs a variable absent
    from the scope (and from [GLOBALS]) renders it as the empty string,
    also when it is reached through another variable: the environment
    keeps Jinja2's lenient [Undefined], and no error is raised. *)
Theorem undefined_variable_renders_empty
  (fuel : nat) (args : scope) (n : string) :
  is_variable_name n = true ->
  dict_get n args = None ->
  n <> "omit" ->
  has_key "self" args = false ->
  render_template (S fuel) (VStr (output_of n)) args = Ok (VStr "")
  /\ (forall x : string,
         is_variable_name x = true ->
         dict_get x args = Some (VStr (output_of n)) ->
         render_template (S (S fuel)) (VStr (output_of x)) args
         = Ok (VStr "")).
Proof.
  intros Hn Hget Homit Hs.
  assert (E : forall fuel', render_source (S fuel') (output_of n) args = Ok "").
  { intros fuel'. rewrite (render_source_output fuel' n args Hn).
    unfold resolve. rewrite Hget.
    destruct (String.eqb_spec n "omit") as [->|_]; [contradiction|].
    reflexivity. }
  split.
  - rewrite (render_template_output _ n args Hn Hs). now rewrite E.
  - intros x Hx Hxget.
    rewrite (render_template_output _ x args Hx Hs).
    rewrite (render_source_indirect _ x n args Hx Hxget). now rewrite E.
Qed.


(** *** Conditions *)

Lemma evaluate_condition_name (fuel : nat) (n : string) (vars : scope) :
  is_variable_name n = true ->
  has_key "self" vars = false ->
  evaluate_condition (S fuel) n vars = Ok (py_bool (resolve vars n)).
Proof.
  intros Hn Hs. unfold evaluate_condition, condition_template.
  rewrite (env_render_no_self _ _ vars _ Hs (from_string_condition n Hn)).
  cbn [render_source]. rewrite (from_string_condition n Hn).
  cbn [render_nodes]. rewrite render_node_if. cbn [eval_expr bind].
  destruct (py_bool (resolve vars n)); reflexivity.
Qed.

(** C4, as the code has it.  [evaluate_condition] renders the condition
    inside an if/else template and returns [True] exactly when the
    rendered text is ['True'] and [False] for any other text; it raises
    no error of its own, [ConditionError] or other (an error that leaves
    it was raised by the rendering); on a condition that is a variable
    name it returns the truth value of the variable, boolean or not. *)
Theorem evaluate_condition_result
  (fuel : nat) (condition : string) (tmp_vars : scope) :
  (forall ret : string,
      env_render fuel (condition_template condition) tmp_vars = Ok ret ->
      evaluate_condition fuel condition tmp_vars = Ok (ret =? "True"))
  /\ (forall e : exn,
         evaluate_condition fuel condition tmp_vars = Raise e ->
         env_render fuel (condition_template condition) tmp_vars = Raise e
         /\ e <> OtherError "ConditionError")
  /\ (is_variable_name condition = true ->
      has_key "self" tmp_vars = false ->
      evaluate_condition (S fuel) condition tmp_vars
      = Ok (py_bool (resolve tmp_vars condition))).
Proof.
  split; [|split].
  - intros ret E. unfold evaluate_condition. rewrite E. cbn [bind].
    now destruct (ret =? "True").
  - intros e H. unfold evaluate_condition in H.
    apply bind_raise_inv in H as [H | (ret & _ & H)].
    + split; [exact H|].
      apply env_render_raise in H. subst e. discriminate.
    + destruct (ret =? "True"); discriminate.
  - apply evaluate_condition_name.
Qed.

End TemplateFacts.

(** ** [Template]: mappings and sequences *)

Section ContainerFacts.

Context {F : PyFloat}.

Import PyStr Jinja.
Local Open Scope string_scope.

(** *** The loops and the omit rule *)

Lemma bind_assoc {A B C : Type} (m : outcome A) (f : A -> outcome B)
  (g : B -> outcome C) :
  (y <- (x <- m ;; f x) ;; g y) = (x <- m ;; y <- f x ;; g y).
Proof. now destruct m. Qed.

Lemma render_list_items_spec (render : value -> outcome value)
  (items ret : list value) :
  render_list_items render items ret
  = (xs <- traverse (fun v => r <- render v ;; type_fixup r)
             (List.filter (fun v => negb (is_omit v)) items) ;;
     Ok (ret ++ xs)%list).
Proof.
  revert ret. induction items as [|v items IH]; intros ret.
  - cbn. now rewrite app_nil_r.
  - cbn [render_list_items List.filter].
    destruct (is_omit v); cbn [negb]; [apply IH|].
    cbn [traverse].
    destruct (render v) as [r| | |]; cbn [bind]; try reflexivity.
    destruct (type_fixup r) as [x| | |]; cbn [bind]; try reflexivity.
    rewrite IH.
    destruct (traverse _ _) as [xs| | |]; cbn [bind]; try reflexivity.
    now rewrite <- app_assoc.
Qed.

Lemma dict_set_fresh (k : string) (x : value) (ret : list (string * value)) :
  ~ In k (map fst ret) -> dict_set k x ret = (ret ++ [(k, x)])%list.
Proof.
  induction ret as [|[k' v'] ret IH]; intros Hk; [reflexivity|].
  cbn [dict_set]. cbn in Hk.
  destruct (String.eqb_spec k k') as [->|_]; [tauto|].
  rewrite IH by tauto. reflexivity.
Qed.

Lemma render_dict_items_spec (render : value -> outcome value)
  (items ret : list (string * value)) :
  NoDup (map fst items) ->
  (forall k, In k (map fst items) -> ~ In k (map fst ret)) ->
  render_dict_items render items ret
  = (xs <- traverse
             (fun kv => x <- (r <- render (snd kv) ;; type_fixup r) ;;
                        Ok (fst kv, x))
             (List.filter (fun kv => negb (is_omit (snd kv))) items) ;;
     Ok (ret ++ xs)%list).
Proof.
  revert ret. induction items as [|[k v] items IH]; intros ret Hnd Hfresh.
  - cbn. now rewrite app_nil_r.
  - cbn [map fst] in Hnd, Hfresh. inversion Hnd as [|? ? Hk Hnd']; subst.
    cbn [render_dict_items List.filter snd].
    destruct (is_omit v); cbn [negb].
    + apply IH; [exact Hnd'|]. intros k' Hk'. apply Hfresh. now right.
    + cbn [traverse snd fst].
      destruct (render v) as [r| | |]; cbn [bind]; try reflexivity.
      destruct (type_fixup r) as [x| | |]; cbn [bind]; try reflexivity.
      rewrite (dict_set_fresh k x ret) by (apply Hfresh; now left).
      rewrite IH; [|exact Hnd'|].
      * destruct (traverse _ _) as [xs| | |]; cbn [bind]; try reflexivity.
        now rewrite <- app_assoc.
      * intros k' Hk'. rewrite map_app, in_app_iff. cbn.
        intros [Hin | [<- | []]]; [|contradiction].
        revert Hin. apply Hfresh. now right.
Qed.

(** C8.  A sequence (list or tuple) renders to the list of its entries
    other than the omit sentinel, each rendered and fixed up, in their
    order; a mapping renders to the mapping of its entries whose value is
    not the sentinel, under their keys and in their order.  An entry that
    fails makes the whole rendering fail the same way. *)
Theorem omit_entries_dropped (fuel : nat) (args : scope) :
  (forall items : list value,
      render_template fuel (VList items) args
      = (xs <- omit_filtered_list fuel args items ;; Ok (VList xs)))
  /\ (forall items : list value,
         render_template fuel (VTuple items) args
         = (xs <- omit_filtered_list fuel args items ;; Ok (VList xs)))
  /\ (forall items : list (string * value),
         NoDup (map fst items) ->
         render_template fuel (VDict items) args
         = (xs <- omit_filtered_dict fuel args items ;; Ok (VDict xs))).
Proof.
  split; [|split].
  - intros items. cbn [render_template].
    rewrite render_list_items_spec, bind_assoc. reflexivity.
  - intros items. cbn [render_template].
    rewrite render_list_items_spec, bind_assoc. reflexivity.
  - intros items Hnd. cbn [render_template].
    rewrite render_dict_items_spec by (auto; intros k _ []).
    rewrite bind_assoc. reflexivity.
Qed.

(** *** Omission looks at the value before rendering *)

Lemma render_list_items_skip (render : value -> outcome value)
  (pre post ret : list value) :
  render_list_items render (pre ++ VStr OMIT_TOKEN :: post)%list ret
  = render_list_items render (pre ++ post)%list ret.
Proof.
  revert ret. induction pre as [|v pre IH]; intros ret; [reflexivity|].
  rewrite <- !app_comm_cons. cbn [render_list_items].
  destruct (is_omit v); [apply IH|].
  destruct (render v) as [r| | |]; cbn [bind]; try reflexivity.
  destruct (type_fixup r) as [x| | |]; cbn [bind]; try reflexivity.
  apply IH.
Qed.

Lemma render_dict_items_skip (render : value -> outcome value)
  (pre post ret : list (string * value)) (k : string) :
  render_dict_items render (pre ++ (k, VStr OMIT_TOKEN) :: post)%list ret
  = render_dict_items render (pre ++ post)%list ret.
Proof.
  revert ret. induction pre as [|[k' v] pre IH]; intros ret; [reflexivity|].
  rewrite <- !app_comm_cons. cbn [render_dict_items].
  destruct (is_omit v); [apply IH|].
  destruct (render v) as [r| | |]; cbn [bind]; try reflexivity.
  destruct (type_fixup r) as [x| | |]; cbn [bind]; try reflexivity.
  apply IH.
Qed.

Lemma type_fixup_omit_token : type_fixup (VStr OMIT_TOKEN) = Ok (VStr OMIT_TOKEN).
Proof. reflexivity. Qed.

Lemma render_omit_global (fuel : nat) (args : scope) :
  dict_get "omit" args = None ->
  has_key "self" args = false ->
  env_render (S fuel) (output_of "omit") args = Ok OMIT_TOKEN.
Proof.
  intros Hget Hs.
  assert (Hn : is_variable_name "omit" = true) by reflexivity.
  rewrite (env_render_no_self _ _ args _ Hs (from_string_output_of _ Hn)).
  rewrite (render_source_output fuel "omit" args Hn).
  unfold resolve. rewrite Hget. reflexivity.
Qed.

(** C10.  Whether an entry is dropped depends on its value before
    rendering only.  An entry equal to the sentinel leaves no trace in
    the result (the rendering is that of the structure without it); any
    other entry is kept, whatever it renders to; in particular an entry
    whose template renders to the sentinel text, as [{{ omit }}] does,
    stays in the result as that text. *)
Theorem omission_decided_before_rendering (fuel : nat) (args : scope) :
  (forall pre post : list value,
      render_template fuel (VList (pre ++ VStr OMIT_TOKEN :: post)) args
      = render_template fuel (VList (pre ++ post)) args)
  /\ (forall (pre post : list (string * value)) (k : string),
         render_template fuel (VDict (pre ++ (k, VStr OMIT_TOKEN) :: post)) args
         = render_template fuel (VDict (pre ++ post)) args)
  /\ (forall (v : value) (k : string),
         is_omit v = false ->
         render_template fuel (VList [v]) args
         = (x <- render_entry fuel args v ;; Ok (VList [x]))
         /\ render_template fuel (VDict [(k, v)]) args
            = (x <- render_entry fuel args v ;; Ok (VDict [(k, x)])))
  /\ (forall (s k : string),
         is_omit (VStr s) = false ->
         env_render fuel s args = Ok OMIT_TOKEN ->
         render_template fuel (VList [VStr s]) args
         = Ok (VList [VStr OMIT_TOKEN])
         /\ render_template fuel (VDict [(k, VStr s)]) args
            = Ok (VDict [(k, VStr OMIT_TOKEN)]))
  /\ (dict_get "omit" args = None ->
      has_key "self" args = false ->
      env_render (S fuel) (output_of "omit") args = Ok OMIT_TOKEN).
Proof.
  assert (Hone : forall (v : value) (k : string),
             is_omit v = false ->
             render_template fuel (VList [v]) args
             = (x <- render_entry fuel args v ;; Ok (VList [x]))
             /\ render_template fuel (VDict [(k, v)]) args
                = (x <- render_entry fuel args v ;; Ok (VDict [(k, x)]))).
  { intros v k Hv. unfold render_entry.
    cbn [render_template render_list_items render_dict_items].
    rewrite Hv.
    destruct (render_template fuel v args) as [r| | |]; cbn [bind];
      try (split; reflexivity).
    destruct (type_fixup r) as [x| | |]; cbn [bind]; split; reflexivity. }
  split; [|split; [|split; [|split]]].
  - intros pre post. cbn [render_template].
    now rewrite render_list_items_skip.
  - intros pre post k. cbn [render_template].
    now rewrite render_dict_items_skip.
  - exact Hone.
  - intros s k Hs E. destruct (Hone (VStr s) k Hs) as [-> ->].
    unfold render_entry. cbn [render_template]. rewrite E. cbn [bind].
    rewrite type_fixup_omit_token. split; reflexivity.
  - apply render_omit_global.
Qed.

(** *** Type fixup of the entries *)

Lemma type_fixup_fixed (r x : value) :
  type_fixup r = Ok x ->
  entries_fixed r = true ->
  is_typed_marker x = false /\ entries_fixed x = true.
Proof.
  intros H Hr.
  destruct r; cbn [type_fixup] in H;
    try (injection H as <-; split; [reflexivity | exact Hr]).
  destruct (marker_match s) as [[ty p]|] eqn:E.
  - destruct (ty =? "int") eqn:Ei.
    { destruct (int_of_str p); [|discriminate].
      injection H as <-. now split. }
    destruct (ty =? "float") eqn:Ef.
    { destruct (float_of_str p); [|discriminate].
      injection H as <-. now split. }
    destruct (ty =? "bool") eqn:Eb.
    { destruct (lower p =? "true"); injection H as <-; now split. }
    injection H as <-. split; [|reflexivity].
    cbn [is_typed_marker]. now rewrite E, Ei, Ef, Eb.
  - injection H as <-. split; [|reflexivity].
    cbn [is_typed_marker]. now rewrite E.
Qed.

Lemma render_list_items_fixed (render : value -> outcome value)
  (items : list value) :
  Forall (fun v => forall r, render v = Ok r -> entries_fixed r = true) items ->
  forall ret out,
    forallb entry_ok ret = true ->
    render_list_items render items ret = Ok out ->
    forallb entry_ok out = true.
Proof.
  induction 1 as [|v items Hv _ IH]; intros ret out Hret H.
  - cbn in H. now injection H as <-.
  - cbn [render_list_items] in H.
    destruct (is_omit v); [now apply (IH ret)|].
    destruct (render v) as [r| | |] eqn:Er; cbn [bind] in H; try discriminate.
    destruct (type_fixup r) as [x| | |] eqn:Ex; cbn [bind] in H;
      try discriminate.
    destruct (type_fixup_fixed r x Ex (Hv r eq_refl)) as [H1 H2].
    apply (IH (ret ++ [x])%list); [|exact H].
    rewrite forallb_app, Hret. cbn. unfold entry_ok. now rewrite H1, H2.
Qed.

Lemma dict_set_fixed (k : string) (x : value) (ret : list (string * value)) :
  entry_ok x = true ->
  forallb (fun kv => entry_ok (snd kv)) ret = true ->
  forallb (fun kv => entry_ok (snd kv)) (dict_set k x ret) = true.
Proof.
  intros Hx. induction ret as [|[k' v'] ret IH]; cbn [dict_set forallb snd].
  - intros _. now rewrite Hx.
  - intros H. apply andb_true_iff in H as [Hv' Hret].
    destruct (k =? k'); cbn [forallb snd].
    + now rewrite Hx, Hret.
    + now rewrite Hv', (IH Hret).
Qed.

Lemma render_dict_items_fixed (render : value -> outcome value)
  (items : list (string * value)) :
  Forall (fun kv => forall r, render (snd kv) = Ok r -> entries_fixed r = true)
         items ->
  forall ret out,
    forallb (fun kv => entry_ok (snd kv)) ret = true ->
    render_dict_items render items ret = Ok out ->
    forallb (fun kv => entry_ok (snd kv)) out = true.
Proof.
  induction 1 as [|[k v] items Hv _ IH]; intros ret out Hret H.
  - cbn in H. now injection H as <-.
  - cbn [render_dict_items] in H. cbn [snd] in Hv.
    destruct (is_omit v); [now apply (IH ret)|].
    destruct (render v) as [r| | |] eqn:Er; cbn [bind] in H; try discriminate.
    destruct (type_fixup r) as [x| | |] eqn:Ex; cbn [bind] in H;
      try discriminate.
    destruct (type_fixup_fixed r x Ex (Hv r eq_refl)) as [H1 H2].
    apply (IH (dict_set k x ret)); [|exact H].
    apply dict_set_fixed; [|exact Hret].
    unfold entry_ok. now rewrite H1, H2.
Qed.

Lemma render_template_fixed (fuel : nat) (args : scope) (template : value) :
  forall r, render_template fuel template args = Ok r ->
            entries_fixed r = true.
Proof.
  induction template as [| b | z | f | s | l IH | l IH | d IH |]
    using value_ind'; intros r H; cbn [render_template] in H;
    try (injection H as <-; reflexivity).
  - destruct (env_render fuel s args); cbn [bind] in H; try discriminate.
    now injection H as <-.
  - destruct (render_list_items _ l []) as [ret| | |] eqn:E;
      cbn [bind] in H; try discriminate.
    injection H as <-. cbn [entries_fixed].
    now apply (render_list_items_fixed _ l IH [] ret eq_refl E).
  - destruct (render_list_items _ l []) as [ret| | |] eqn:E;
      cbn [bind] in H; try discriminate.
    injection H as <-. cbn [entries_fixed].
    now apply (render_list_items_fixed _ l IH [] ret eq_refl E).
  - destruct (render_dict_items _ d []) as [ret| | |] eqn:E;
      cbn [bind] in H; try discriminate.
    injection H as <-. cbn [entries_fixed].
    now apply (render_dict_items_fixed _ d IH [] ret eq_refl E).
Qed.

(** C3, as the code has it.  Type fixup is applied to the entries of
    mappings and sequences, not to a string given to [render_template]
    itself: such a string is returned as rendered, marker or not; every
    entry of a rendered mapping or sequence is what [type_fixup] makes of
    its rendering, so that, at any depth, no entry of a result is a
    marker of type [int], [float] or [bool]. *)
Theorem type_fixup_applies_to_entries (fuel : nat) (args : scope) :
  (forall s r : string,
      env_render fuel s args = Ok r ->
      render_template fuel (VStr s) args = Ok (VStr r))
  /\ (forall (s r k : string),
         is_omit (VStr s) = false ->
         env_render fuel s args = Ok r ->
         render_template fuel (VList [VStr s]) args
         = (x <- type_fixup (VStr r) ;; Ok (VList [x]))
         /\ render_template fuel (VDict [(k, VStr s)]) args
            = (x <- type_fixup (VStr r) ;; Ok (VDict [(k, x)])))
  /\ (forall template r : value,
         render_template fuel template args = Ok r ->
         entries_fixed r = true).
Proof.
  split; [|split].
  - intros s r E. cbn [render_template]. now rewrite E.
  - intros s r k Hs E.
    cbn [render_template render_list_items render_dict_items].
    rewrite Hs. cbn [render_template]. rewrite E. cbn [bind].
    destruct (type_fixup (VStr r)); split; reflexivity.
  - intros template r. apply render_template_fixed.
Qed.

End ContainerFacts.

(** ** The driving loop *)

Section DriverFacts.

Import Driver.
Context {V : Type}.
Local Open Scope string_scope.


Lemma validate_fields_first (fields : list string) (a : @app V) (idx : nat)
  (ps : list (@plugin V)) :
  validate_fields fields a idx ps
  = match find (fun f => negb (valid_field f a ps)) fields with
    | Some f => Some (DeployConfigError (invalid_field_msg f idx))
    | None => None
    end.
Proof.
  induction fields as [|f fields IH]; [reflexivity|].
  cbn [validate_fields find].
  destruct (valid_field f a ps); cbn [negb]; [exact IH | reflexivity].
Qed.

Lemma find_invalid_exists (fields : list string) (a : @app V) (ps : list (@plugin V))
  (field : string) :
  In field fields -> valid_field field a ps = false ->
  exists f, find (fun f => negb (valid_field f a ps)) fields = Some f.
Proof.
  intros Hin Hf.
  destruct (find _ fields) as [f|] eqn:E; [now exists f|].
  apply (find_none _ _ E) in Hin. now rewrite Hf in Hin.
Qed.

Lemma app_validate_fields_returns (a : @app V) (idx : nat) (ps : list (@plugin V)) :
  snd (app_validate_fields a idx ps) = None.
Proof.
  unfold app_validate_fields. rewrite validate_fields_first.
  now destruct (find _ _).
Qed.

(** C6, as the code has it.  When an application has a field that no
    plugin both declares and is needed for, validation displays one
    error, naming the first such field and the application's ordinal
    (index plus one), and returns; generation is then attempted for that
    application as for any other, and the loop goes on to the next
    applications (unless [generate] raises an error that is not
    caught). *)
Theorem invalid_field_reported (a : @app V) (app_index : nat)
  (output_plugins : list (@plugin V)) (field : string) :
  In field (map fst a) ->
  valid_field field a output_plugins = false ->
  exists first : string,
    find (fun f => negb (valid_field f a output_plugins)) (map fst a)
    = Some first
    /\ valid_field first a output_plugins = false
    /\ app_validate_fields a app_index output_plugins
       = ([Display ("Failed to load deploy config: field '" ++ first
                    ++ "' in application " ++ str_of_nat (app_index + 1)
                    ++ " is not valid for relevant output plugins")],
          None)
    /\ forall rest : list (@app V),
         main_loop app_index (a :: rest) output_plugins
         = let report :=
             Display ("Failed to load deploy config: field '" ++ first
                      ++ "' in application " ++ str_of_nat (app_index + 1)
                      ++ " is not valid for relevant output plugins") in
           let (ev2, r2) := app_render_output a app_index output_plugins in
           match r2 with
           | Some e => (report :: ev2, Some e)
           | None =>
               let (ev3, r3) := main_loop (S app_index) rest output_plugins in
               (report :: (ev2 ++ ev3)%list, r3)
           end.
Proof.
  intros Hin Hf.
  destruct (find_invalid_exists _ a output_plugins field Hin Hf) as [first E].
  exists first. split; [exact E|].
  pose proof (find_some _ _ E) as [_ Hfirst].
  apply negb_true_iff in Hfirst. split; [exact Hfirst|].
  assert (Ev : app_validate_fields a app_index output_plugins
               = ([Display ("Failed to load deploy config: "
                            ++ invalid_field_msg first app_index)], None)).
  { unfold app_validate_fields. now rewrite validate_fields_first, E. }
  split; [exact Ev|].
  intros rest. cbn [main_loop]. rewrite Ev. reflexivity.
Qed.

Lemma generate_all_prefix (a : @app V) (idx : nat) (before : list (@plugin V))
  (p : @plugin V) (after : list (@plugin V)) (e : exn) :
  (forall q, In q before -> is_needed q a = true ->
             generate q a (idx + 1) = None) ->
  is_needed p a = true ->
  generate p a (idx + 1) = Some e ->
  generate_all a idx (before ++ p :: after)
  = ((map (fun q => Generate (NAME q) (idx + 1))
          (List.filter (fun q => is_needed q a) before)
      ++ [Generate (NAME p) (idx + 1)])%list,
     Some e).
Proof.
  intros Hb Hp He. induction before as [|q before IH].
  - cbn. now rewrite Hp, He.
  - rewrite <- app_comm_cons. cbn [generate_all List.filter].
    assert (IH' := IH (fun q' Hq' => Hb q' (or_intror Hq'))).
    destruct (is_needed q a) eqn:Hq.
    + rewrite (Hb q (or_introl eq_refl) Hq), IH'. reflexivity.
    + exact IH'.
Qed.

(** C7, as the code has it.  A [ConfigGenerationError] raised by the
    [generate] of a plugin (which is given the application's ordinal) is
    caught and displayed with the error's own message; it ends the loop
    over the plugins for that application, so that the plugins after it
    do not run for it; the loop over the applications goes on to the
    next one. *)
Theorem generation_failure_caught (a : @app V) (app_index : nat)
  (before : list (@plugin V)) (p : @plugin V) (after : list (@plugin V)) (msg : string) :
  (forall q, In q before -> is_needed q a = true ->
             generate q a (app_index + 1) = None) ->
  is_needed p a = true ->
  generate p a (app_index + 1) = Some (ConfigGenerationError msg) ->
  app_render_output a app_index (before ++ p :: after)
  = ((map (fun q => Generate (NAME q) (app_index + 1))
          (List.filter (fun q => is_needed q a) before)
      ++ [Generate (NAME p) (app_index + 1);
          Display ("Failed to generate deploy config: " ++ msg)])%list,
     None)
  /\ forall rest : list (@app V),
       main_loop app_index (a :: rest) (before ++ p :: after)
       = let (ev1, _) :=
           app_validate_fields a app_index (before ++ p :: after) in
         let (ev2, _) :=
           app_render_output a app_index (before ++ p :: after) in
         let (ev3, r3) :=
           main_loop (S app_index) rest (before ++ p :: after) in
         ((ev1 ++ ev2 ++ ev3)%list, r3).
Proof.
  intros Hb Hp He.
  assert (E : app_render_output a app_index (before ++ p :: after)
              = ((map (fun q => Generate (NAME q) (app_index + 1))
                      (List.filter (fun q => is_needed q a) before)
                  ++ [Generate (NAME p) (app_index + 1);
                      Display ("Failed to generate deploy config: " ++ msg)])%list,
                 None)).
  { unfold app_render_output.
    rewrite (generate_all_prefix a app_index before p after _ Hb Hp He).
    now rewrite <- app_assoc. }
  split; [exact E|].
  intros rest. cbn [main_loop]. rewrite E.
  pose proof (app_validate_fields_returns a app_index (before ++ p :: after)) as Hv.
  destruct (app_validate_fields a app_index (before ++ p :: after)) as [ev1 r1].
  cbn [snd] in Hv. subst r1. reflexivity.
Qed.

End DriverFacts.

(** ** The statements on concrete inputs *)

Section Examples.

Import PyStr Jinja Driver.
Local Open Scope string_scope.

(** C1: on a variable that refers to itself the rendering is ended by
    the interpreter's [RecursionError] whatever its limit is: it fails,
    but with no [RenderingDepthExceededError], and no limit of the
    engine is involved. *)
Lemma self_reference_ends_in_recursion_error :
  ~ (exists limit : nat,
        render_template_limited limit (VStr "{{ X }}")
          [("X", VStr "{{ X }}")]
        <> Raise (OtherError "RecursionError")).
Proof.
  intros [limit H]. apply H. clear H.
  unfold render_template_limited. cbn [render_template].
  rewrite (env_render_no_self limit "{{ X }}" _ [NOutput (EName "X")]);
    [|reflexivity|reflexivity].
  assert (E : render_source limit (output_of "X") [("X", VStr "{{ X }}")]
              = OutOfFuel).
  { apply (cycle_out_of_fuel _ (fun n => n = "X")); [|reflexivity].
    intros n ->. split; [reflexivity|]. exists "X". split; reflexivity. }
  change (output_of "X") with "{{ X }}" in E. now rewrite E.
Qed.

Lemma finalize_bounded_by_interpreter_only_witness :
  render_template_limited 2 (VStr (output_of "A"))
    [("A", VStr "{{ B }}"); ("B", VStr "end")]
  = Ok (VStr "end")
  /\ render_template_limited 1 (VStr (output_of "A"))
       [("A", VStr "{{ B }}"); ("B", VStr "end")]
     = Raise RecursionError
  /\ render_template_limited 7 (VStr (output_of "X")) [("X", VStr "{{ X }}")]
     = Raise RecursionError.
Proof.
  destruct (@finalize_bounded_by_interpreter_only no_floats) as [H1 H2].
  assert (Hi : indirection [("A", VStr "{{ B }}"); ("B", VStr "end")]
                 "A" 1 "end").
  { apply (indirection_step _ "A" "B" 0 "end"); [reflexivity|reflexivity|].
    apply indirection_end; reflexivity. }
  split; [|split].
  - apply (H1 [("A", VStr "{{ B }}"); ("B", VStr "end")] "A" 1 "end" 2
              eq_refl Hi). lia.
  - apply (H1 [("A", VStr "{{ B }}"); ("B", VStr "end")] "A" 1 "end" 1
              eq_refl Hi). lia.
  - apply (H2 [("X", VStr "{{ X }}")] (fun n => n = "X")).
    + reflexivity.
    + intros n ->. split; [reflexivity|]. exists "X". split; reflexivity.
    + reflexivity.
Defined.

Lemma type_fixup_round_trip_witness :
  (s <- filter_output_int (VStr "42") ;; type_fixup (VStr s)) = Ok (VInt 42)
  /\ type_fixup (VStr "__OMIT__TOKEN__") = Ok (VStr "__OMIT__TOKEN__").
Proof.
  destruct (@type_fixup_round_trip no_floats) as (H1 & _ & _ & _ & H5). split.
  - destruct (H1 (VStr "42") "42" eq_refl eq_refl) as (E & _). exact E.
  - apply H5. intros s E. injection E as <-. reflexivity.
Defined.

(** C3: a string given to [render_template] comes back as the marker
    text. *)
Lemma top_level_string_keeps_marker :
  render_template 1 (VStr "{{ x | output_int }}") [("x", VInt 5)]
  = Ok (VStr "__int__5__int__").
Proof. vm_compute. reflexivity. Qed.

Lemma type_fixup_applies_to_entries_witness :
  render_template 1 (VStr "{{ x | output_int }}") [("x", VInt 5)]
  = Ok (VStr "__int__5__int__")
  /\ render_template 1 (VList [VStr "{{ x | output_int }}"]) [("x", VInt 5)]
     = Ok (VList [VInt 5])
  /\ entries_fixed (VList [VInt 5]) = true.
Proof.
  destruct (@type_fixup_applies_to_entries no_floats 1 [("x", VInt 5)])
    as (H1 & H2 & H3).
  split; [|split].
  - apply H1. vm_compute. reflexivity.
  - destruct (H2 "{{ x | output_int }}" "__int__5__int__" "k"
                eq_refl ltac:(vm_compute; reflexivity)) as [E _].
    rewrite E. vm_compute. reflexivity.
  - apply (H3 (VList [VStr "{{ x | output_int }}"]) (VList [VInt 5])).
    vm_compute. reflexivity.
Defined.

(** C4: a rendered text that is neither ['True'] nor ['False'] gives
    [False], and a condition whose value is a string gives [True]; no
    [ConditionError] in either case. *)
Lemma condition_without_error :
  env_render 1
    (condition_template "x %}yes{% else %}no{% endif %}{% if x")
    [("x", VBool true)] = Ok "yesTrue"
  /\ evaluate_condition 1 "x %}yes{% else %}no{% endif %}{% if x"
       [("x", VBool true)] = Ok false
  /\ evaluate_condition 1 "name" [("name", VStr "api")] = Ok true.
Proof. vm_compute. repeat split. Qed.

Lemma evaluate_condition_result_witness :
  evaluate_condition 1 "name" [("name", VStr "api")] = Ok true
  /\ evaluate_condition 1 "x %}yes{% else %}no{% endif %}{% if x"
       [("x", VBool true)] = Ok false.
Proof.
  split.
  - destruct (@evaluate_condition_result no_floats 0 "name"
                [("name", VStr "api")]) as (_ & _ & H3).
    apply (H3 eq_refl eq_refl).
  - destruct (@evaluate_condition_result no_floats 1
                "x %}yes{% else %}no{% endif %}{% if x"
                [("x", VBool true)]) as (H1 & _ & _).
    apply (H1 "yesTrue"). vm_compute. reflexivity.
Defined.

(** C5: an absent variable renders as the empty string, without error. *)
Lemma undefined_variable_is_silent :
  render_template 1 (VStr "{{ UNSET }}") [] = Ok (VStr "").
Proof. vm_compute. reflexivity. Qed.

Lemma undefined_variable_renders_empty_witness :
  render_template 1 (VStr (output_of "UNSET")) [("SERVICE_NAME", VStr "api")]
  = Ok (VStr "").
Proof.
  destruct (@undefined_variable_renders_empty no_floats 0
              [("SERVICE_NAME", VStr "api")] "UNSET"
              eq_refl eq_refl ltac:(discriminate) eq_refl) as [E _].
  exact E.
Defined.

(** C6: after the report of the unknown field, [generate] is called for
    the same application. *)
Lemma generation_not_skipped :
  main_loop 0 [[("name", "web"); ("bogus_field", "1")]] [dummy_plugin]
  = ([Display ("Failed to load deploy config: field 'bogus_field' in "
               ++ "application 1 is not valid for relevant output plugins");
      Generate "dummy" 1],
     None).
Proof. vm_compute. reflexivity. Qed.

Lemma invalid_field_reported_witness :
  exists first : string,
    find (fun f => negb (valid_field f [("name", "web"); ("bogus_field", "1")]
                           [dummy_plugin]))
         ["name"; "bogus_field"] = Some first
    /\ app_validate_fields [("name", "web"); ("bogus_field", "1")] 0
         [dummy_plugin]
       = ([Display ("Failed to load deploy config: field '" ++ first
                    ++ "' in application 1"
                    ++ " is not valid for relevant output plugins")],
          None).
Proof.
  destruct (@invalid_field_reported string
              [("name", "web"); ("bogus_field", "1")] 0 [dummy_plugin]
              "bogus_field" (or_intror (or_introl eq_refl)) eq_refl)
    as (first & Hfind & _ & Hv & _).
  exists first. split; [exact Hfind | exact Hv].
Defined.

(** C7: the plugin after the failing one is not run for the
    application, and the report carries the message only. *)
Lemma later_plugin_not_run :
  main_loop 0 [[("name", "web")]] [failing_plugin; dummy_plugin]
  = ([Generate "failing" 1;
      Display "Failed to generate deploy config: boom"],
     None).
Proof. vm_compute. reflexivity. Qed.

Lemma generation_failure_caught_witness :
  app_render_output [("name", "web")] 0
    [dummy_plugin; failing_plugin; dummy_plugin]
  = ([Generate "dummy" 1; Generate "failing" 1;
      Display "Failed to generate deploy config: boom"],
     None).
Proof.
  assert (Hb : forall q : @plugin string,
             In q [dummy_plugin] ->
             is_needed q [("name", "web")] = true ->
             generate q [("name", "web")] (0 + 1) = None).
  { intros q [<- | []] _. reflexivity. }
  destruct (@generation_failure_caught string [("name", "web")] 0
              [dummy_plugin] failing_plugin [dummy_plugin] "boom"
              Hb eq_refl eq_refl)
    as [E _].
  exact E.
Defined.

Lemma omit_entries_dropped_witness :
  render_template 1
    (VDict [("a", VStr "x"); ("b", VStr OMIT_TOKEN); ("c", VInt 3)]) []
  = Ok (VDict [("a", VStr "x"); ("c", VInt 3)]).
Proof.
  destruct (@omit_entries_dropped no_floats 1 []) as (_ & _ & H).
  rewrite H.
  - vm_compute. reflexivity.
  - repeat constructor; cbn; intuition discriminate.
Defined.



Lemma omission_decided_before_rendering_witness :
  render_template 1 (VList [VStr "{{ omit }}"]) []
  = Ok (VList [VStr OMIT_TOKEN])
  /\ render_template 1 (VList [VStr OMIT_TOKEN]) [] = Ok (VList []).
Proof.
  destruct (@omission_decided_before_rendering no_floats 1 [])
    as (H1 & _ & _ & H4 & _).
  split.
  - destruct (H4 "{{ omit }}" "k" eq_refl ltac:(vm_compute; reflexivity))
      as [E _].
    exact E.
  - etransitivity; [exact (H1 [] []) | reflexivity].
Defined.

End Examples.

(** ** More on the driving loop *)

Section DriverMore.

Import Driver.
Context {V : Type}.
Local Open Scope string_scope.

Lemma find_none_forallb (f : string -> bool) (l : list string) :
  find (fun x => negb (f x)) l = None <-> forallb f l = true.
Proof.
  induction l as [|x l IH]; cbn [find forallb]; [tauto|].
  destruct (f x); cbn [negb andb]; [exact IH|].
  split; discriminate.
Qed.

(** For an application descriptor that is a mapping, validation displays
    at most one error however many of its fields are invalid (the first
    invalid field ends the loop over the fields), and displays none
    exactly when every field is declared by a plugin that is needed for
    the application. *)
Theorem validation_reports_at_most_once (a : @app V) (app_index : nat)
  (output_plugins : list (@plugin V)) :
  length (fst (app_validate_fields a app_index output_plugins)) <= 1
  /\ (fst (app_validate_fields a app_index output_plugins) = []
      <-> forallb (fun f => valid_field f a output_plugins) (map fst a) = true).
Proof.
  rewrite <- find_none_forallb.
  unfold app_validate_fields. rewrite validate_fields_first.
  destruct (find _ (map fst a)) as [f|]; cbn.
  - repeat split; try lia; discriminate.
  - repeat split; lia.
Qed.

Lemma generate_all_succeed (a : @app V) (idx : nat) (ps : list (@plugin V)) :
  (forall p, In p ps -> is_needed p a = true ->
             generate p a (idx + 1) = None) ->
  generate_all a idx ps
  = (map (fun p => Generate (NAME p) (idx + 1))
         (List.filter (fun p => is_needed p a) ps),
     None).
Proof.
  induction ps as [|p ps IH]; intros H; [reflexivity|].
  cbn [generate_all List.filter].
  assert (IH' := IH (fun q Hq => H q (or_intror Hq))).
  destruct (is_needed p a) eqn:Hp; [|exact IH'].
  now rewrite (H p (or_introl eq_refl) Hp), IH'.
Qed.

(** When no [generate] fails, [app_render_output] calls it once for each
    plugin that is needed for the application, in the order of the
    plugins and with the ordinal index plus one; a plugin that is not
    needed is never called. *)
Theorem render_output_calls_needed_plugins (a : @app V) (app_index : nat)
  (output_plugins : list (@plugin V)) :
  (forall p, In p output_plugins -> is_needed p a = true ->
             generate p a (app_index + 1) = None) ->
  app_render_output a app_index output_plugins
  = (map (fun p => Generate (NAME p) (app_index + 1))
         (List.filter (fun p => is_needed p a) output_plugins),
     None).
Proof.
  intros H. unfold app_render_output.
  now rewrite (generate_all_succeed a app_index output_plugins H).
Qed.

(** An error of [generate] that is not a [ConfigGenerationError] is not
    caught: it leaves [app_render_output] and the loop of [main], and
    neither the later plugins nor the later applications are
    processed. *)
Theorem other_error_stops_the_loop (a : @app V) (app_index : nat)
  (before : list (@plugin V)) (p : @plugin V) (after : list (@plugin V))
  (e : exn) :
  (forall q, In q before -> is_needed q a = true ->
             generate q a (app_index + 1) = None) ->
  is_needed p a = true ->
  generate p a (app_index + 1) = Some e ->
  (forall msg, e <> ConfigGenerationError msg) ->
  forall rest : list (@app V),
    main_loop app_index (a :: rest) (before ++ p :: after)
    = ((fst (app_validate_fields a app_index (before ++ p :: after))
        ++ map (fun q => Generate (NAME q) (app_index + 1))
               (List.filter (fun q => is_needed q a) before)
        ++ [Generate (NAME p) (app_index + 1)])%list,
       Some e).
Proof.
  intros Hb Hp He Hne rest.
  assert (E : app_render_output a app_index (before ++ p :: after)
              = ((map (fun q => Generate (NAME q) (app_index + 1))
                      (List.filter (fun q => is_needed q a) before)
                  ++ [Generate (NAME p) (app_index + 1)])%list,
                 Some e)).
  { unfold app_render_output.
    rewrite (generate_all_prefix a app_index before p after e Hb Hp He).
    destruct e; try reflexivity. now destruct (Hne msg). }
  cbn [main_loop]. rewrite E.
  pose proof (app_validate_fields_returns a app_index (before ++ p :: after))
    as Hv.
  destruct (app_validate_fields a app_index (before ++ p :: after)) as [ev1 r1].
  cbn [snd fst] in *. subst r1. reflexivity.
Qed.

(** The loop over a deploy config made of two parts is the loop over
    the first part followed, unless an error left it, by the loop over
    the second part, whose indices go on from the length of the
    first. *)
Theorem main_loop_app (app_idx : nat) (first second : list (@app V))
  (output_plugins : list (@plugin V)) :
  main_loop app_idx (first ++ second) output_plugins
  = match main_loop app_idx first output_plugins with
    | (evs, Some e) => (evs, Some e)
    | (evs, None) =>
        let (evs', r) :=
          main_loop (app_idx + length first) second output_plugins in
        ((evs ++ evs')%list, r)
    end.
Proof.
  revert app_idx. induction first as [|a first IH]; intros app_idx.
  - change ([] ++ second)%list with second.
    cbn [main_loop length]. rewrite Nat.add_0_r.
    now destruct (main_loop app_idx second output_plugins).
  - rewrite <- app_comm_cons. cbn [main_loop length].
    destruct (app_validate_fields a app_idx output_plugins) as [ev1 [e1|]];
      [reflexivity|].
    destruct (app_render_output a app_idx output_plugins) as [ev2 [e2|]];
      [reflexivity|].
    rewrite IH. replace (S app_idx + length first) with (app_idx + S (length first)) by lia.
    destruct (main_loop (S app_idx) first output_plugins) as [ev3 [e3|]];
      [reflexivity|].
    destruct (main_loop (app_idx + S (length first)) second output_plugins)
      as [ev4 r4].
    now rewrite !app_assoc.
Qed.

Lemma generate_all_events (a : @app V) (idx : nat) (ps : list (@plugin V))
  (name : string) (n : nat) :
  In (Generate name n) (fst (generate_all a idx ps)) ->
  n = idx + 1 /\ exists p, In p ps /\ is_needed p a = true /\ NAME p = name.
Proof.
  induction ps as [|p ps IH]; cbn [generate_all]; [intros []|].
  destruct (is_needed p a) eqn:Hp.
  - destruct (generate p a (idx + 1)) as [e|].
    + cbn. intros [[= <- <-] | []]. split; [reflexivity|].
      exists p. cbn [In]; repeat split; auto.
    + destruct (generate_all a idx ps) as [evs res]. cbn [fst] in *.
      intros [[= <- <-] | Hin].
      * split; [reflexivity|]. exists p. cbn [In]; repeat split; auto.
      * destruct (IH Hin) as (-> & q & Hq & Hn & Hname).
        split; [reflexivity|]. exists q. cbn [In]; repeat split; auto.
  - intros Hin. destruct (IH Hin) as (-> & q & Hq & Hn & Hname).
    split; [reflexivity|]. exists q. cbn [In]; repeat split; auto.
Qed.

Lemma app_render_output_events (a : @app V) (idx : nat)
  (ps : list (@plugin V)) (name : string) (n : nat) :
  In (Generate name n) (fst (app_render_output a idx ps)) ->
  n = idx + 1 /\ exists p, In p ps /\ is_needed p a = true /\ NAME p = name.
Proof.
  unfold app_render_output.
  pose proof (generate_all_events a idx ps name n) as H.
  destruct (generate_all a idx ps) as [evs [e|]]; cbn [fst] in *;
    [|exact H].
  destruct e; try exact H.
  cbn [fst]. rewrite in_app_iff. intros [Hin | [[=] | []]]. now apply H.
Qed.

Lemma app_validate_fields_events (a : @app V) (idx : nat)
  (ps : list (@plugin V)) (name : string) (n : nat) :
  ~ In (Generate name n) (fst (app_validate_fields a idx ps)).
Proof.
  unfold app_validate_fields. rewrite validate_fields_first.
  destruct (find _ _); cbn; [|tauto]. intros [[=] | []].
Qed.

(** Every call of [generate] made by the loop of [main] is for a plugin
    of the list that is needed for some application of the config, with
    an ordinal that counts the applications from one: between the
    starting index plus one and the starting index plus the number of
    applications. *)
Theorem generate_ordinals_count_from_one (app_idx : nat)
  (deploy_config : list (@app V)) (output_plugins : list (@plugin V))
  (name : string) (n : nat) :
  In (Generate name n) (fst (main_loop app_idx deploy_config output_plugins)) ->
  app_idx + 1 <= n <= app_idx + length deploy_config
  /\ exists p a,
       In p output_plugins /\ In a deploy_config
       /\ is_needed p a = true /\ NAME p = name.
Proof.
  revert app_idx.
  induction deploy_config as [|a rest IH]; intros app_idx;
    cbn [main_loop]; [intros []|].
  pose proof (app_validate_fields_events a app_idx output_plugins name n) as Hv.
  pose proof (app_render_output_events a app_idx output_plugins name n) as Hr.
  destruct (app_validate_fields a app_idx output_plugins) as [ev1 [e1|]];
    cbn [fst] in *; [tauto|].
  assert (Hhere : In (Generate name n) (fst (app_render_output a app_idx output_plugins)) ->
                  app_idx + 1 <= n <= app_idx + length (a :: rest)
                  /\ exists p a0,
                       In p output_plugins /\ In a0 (a :: rest)
                       /\ is_needed p a0 = true /\ NAME p = name).
  { intros Hin. destruct (Hr Hin) as (-> & p & Hp & Hn & Hname).
    cbn [length]. split; [lia|]. exists p, a. cbn [In]; repeat split; auto. }
  destruct (app_render_output a app_idx output_plugins) as [ev2 [e2|]];
    cbn [fst] in *.
  - rewrite in_app_iff. intros [Hin | Hin]; [tauto | auto].
  - specialize (IH (S app_idx)).
    destruct (main_loop (S app_idx) rest output_plugins) as [ev3 r3].
    cbn [fst] in *. rewrite !in_app_iff.
    intros [Hin | [Hin | Hin]]; [tauto | auto |].
    destruct (IH Hin) as (Hn & p & a0 & Hp & Ha0 & Hneed & Hname).
    cbn [length]. split; [lia|]. exists p, a0. cbn [In]; repeat split; auto.
Qed.

End DriverMore.

(** ** More on [Template] *)

Section TemplateMore.

Context {F : PyFloat}.

Import PyStr Jinja.
Local Open Scope string_scope.

(** [type_fixup] is idempotent: what it returns, it returns unchanged
    when applied again (a converted value is no string, and a string it
    left alone is left alone again). *)
Theorem type_fixup_idempotent (v x : value) :
  type_fixup v = Ok x -> type_fixup x = Ok x.
Proof.
  intros H.
  destruct v; cbn [type_fixup] in H; try (injection H as <-; reflexivity).
  destruct (marker_match s) as [[ty p]|] eqn:E.
  - destruct (ty =? "int") eqn:Ei.
    { destruct (int_of_str p); [|discriminate]. now injection H as <-. }
    destruct (ty =? "float") eqn:Ef.
    { destruct (float_of_str p); [|discriminate]. now injection H as <-. }
    destruct (ty =? "bool") eqn:Eb.
    { destruct (lower p =? "true"); now injection H as <-. }
    injection H as <-. cbn [type_fixup]. now rewrite E, Ei, Ef, Eb.
  - injection H as <-. cbn [type_fixup]. now rewrite E.
Qed.

(** *** Tuples become lists *)

Lemma type_fixup_no_tuple (r x : value) :
  type_fixup r = Ok x -> no_tuple r = true -> no_tuple x = true.
Proof.
  intros H Hr.
  destruct r; cbn [type_fixup] in H;
    try (injection H as <-; exact Hr).
  destruct (marker_match s) as [[ty p]|].
  - destruct (ty =? "int").
    { destruct (int_of_str p); [|discriminate]. now injection H as <-. }
    destruct (ty =? "float").
    { destruct (float_of_str p); [|discriminate]. now injection H as <-. }
    destruct (ty =? "bool").
    { destruct (lower p =? "true"); now injection H as <-. }
    now injection H as <-.
  - now injection H as <-.
Qed.

Lemma render_list_items_no_tuple (render : value -> outcome value)
  (items : list value) :
  Forall (fun v => forall r, render v = Ok r -> no_tuple r = true) items ->
  forall ret out,
    forallb no_tuple ret = true ->
    render_list_items render items ret = Ok out ->
    forallb no_tuple out = true.
Proof.
  induction 1 as [|v items Hv _ IH]; intros ret out Hret H.
  - cbn in H. now injection H as <-.
  - cbn [render_list_items] in H.
    destruct (is_omit v); [now apply (IH ret)|].
    destruct (render v) as [r| | |]; cbn [bind] in H; try discriminate.
    destruct (type_fixup r) as [x| | |] eqn:Ex; cbn [bind] in H;
      try discriminate.
    apply (IH (ret ++ [x])%list); [|exact H].
    rewrite forallb_app, Hret. cbn [forallb].
    now rewrite (type_fixup_no_tuple r x Ex (Hv r eq_refl)).
Qed.

Lemma dict_set_no_tuple (k : string) (x : value) (ret : list (string * value)) :
  no_tuple x = true ->
  forallb (fun kv => no_tuple (snd kv)) ret = true ->
  forallb (fun kv => no_tuple (snd kv)) (dict_set k x ret) = true.
Proof.
  intros Hx. induction ret as [|[k' v'] ret IH]; cbn [dict_set forallb snd].
  - intros _. now rewrite Hx.
  - intros H. apply andb_true_iff in H as [Hv' Hret].
    destruct (k =? k'); cbn [forallb snd].
    + now rewrite Hx, Hret.
    + now rewrite Hv', (IH Hret).
Qed.

Lemma render_dict_items_no_tuple (render : value -> outcome value)
  (items : list (string * value)) :
  Forall (fun kv => forall r, render (snd kv) = Ok r -> no_tuple r = true)
         items ->
  forall ret out,
    forallb (fun kv => no_tuple (snd kv)) ret = true ->
    render_dict_items render items ret = Ok out ->
    forallb (fun kv => no_tuple (snd kv)) out = true.
Proof.
  induction 1 as [|[k v] items Hv _ IH]; intros ret out Hret H.
  - cbn in H. now injection H as <-.
  - cbn [render_dict_items] in H. cbn [snd] in Hv.
    destruct (is_omit v); [now apply (IH ret)|].
    destruct (render v) as [r| | |]; cbn [bind] in H; try discriminate.
    destruct (type_fixup r) as [x| | |] eqn:Ex; cbn [bind] in H;
      try discriminate.
    apply (IH (dict_set k x ret)); [|exact H].
    apply dict_set_no_tuple; [|exact Hret].
    exact (type_fixup_no_tuple r x Ex (Hv r eq_refl)).
Qed.

(** A result of [render_template] holds no tuple, whatever the template
    held: where the template has a tuple, at any depth, the result has a
    list. *)
Theorem rendered_value_has_no_tuple (fuel : nat) (args : scope)
  (template r : value) :
  render_template fuel template args = Ok r -> no_tuple r = true.
Proof.
  revert r.
  induction template as [| b | z | f | s | l IH | l IH | d IH |]
    using value_ind'; intros r H; cbn [render_template] in H;
    try (injection H as <-; reflexivity).
  - destruct (env_render fuel s args); cbn [bind] in H; try discriminate.
    now injection H as <-.
  - destruct (render_list_items _ l []) as [ret| | |] eqn:E;
      cbn [bind] in H; try discriminate.
    injection H as <-. cbn [no_tuple].
    now apply (render_list_items_no_tuple _ l IH [] ret eq_refl E).
  - destruct (render_list_items _ l []) as [ret| | |] eqn:E;
      cbn [bind] in H; try discriminate.
    injection H as <-. cbn [no_tuple].
    now apply (render_list_items_no_tuple _ l IH [] ret eq_refl E).
  - destruct (render_dict_items _ d []) as [ret| | |] eqn:E;
      cbn [bind] in H; try discriminate.
    injection H as <-. cbn [no_tuple].
    now apply (render_dict_items_no_tuple _ d IH [] ret eq_refl E).
Qed.

(** *** Data without text *)

Lemma plain_data_entry (v : value) :
  plain_data v = true -> is_omit v = false /\ type_fixup v = Ok v.
Proof. destruct v; cbn; intros H; try discriminate; now split. Qed.

Lemma render_list_items_plain (render : value -> outcome value)
  (items : list value) :
  Forall (fun v => plain_data v = true -> render v = Ok v) items ->
  forallb plain_data items = true ->
  forall ret, render_list_items render items ret = Ok (ret ++ items)%list.
Proof.
  induction 1 as [|v items Hv _ IH]; intros Hp ret.
  - cbn. now rewrite app_nil_r.
  - cbn [forallb] in Hp. apply andb_true_iff in Hp as [Hpv Hp].
    destruct (plain_data_entry v Hpv) as [Ho Hf].
    cbn [render_list_items]. rewrite Ho, (Hv Hpv). cbn [bind].
    rewrite Hf. cbn [bind]. rewrite (IH Hp). now rewrite <- app_assoc.
Qed.

Lemma unique_keys_head (k : string) (rest : list string) :
  existsb (String.eqb k) rest = false -> ~ In k rest.
Proof.
  intros H Hin. assert (existsb (String.eqb k) rest = true); [|congruence].
  apply existsb_exists. exists k. split; [exact Hin | apply String.eqb_refl].
Qed.

Lemma render_dict_items_plain (render : value -> outcome value)
  (items : list (string * value)) :
  Forall (fun kv => plain_data (snd kv) = true -> render (snd kv) = Ok (snd kv))
         items ->
  forallb (fun kv => plain_data (snd kv)) items = true ->
  unique_keys (map fst items) = true ->
  forall ret,
    (forall k, In k (map fst items) -> ~ In k (map fst ret)) ->
    render_dict_items render items ret = Ok (ret ++ items)%list.
Proof.
  induction 1 as [|[k v] items Hv _ IH]; intros Hp Hu ret Hfresh.
  - cbn. now rewrite app_nil_r.
  - cbn [forallb snd] in Hp. apply andb_true_iff in Hp as [Hpv Hp].
    cbn [map fst unique_keys] in Hu, Hfresh.
    apply andb_true_iff in Hu as [Hk Hu]. apply negb_true_iff in Hk.
    apply unique_keys_head in Hk. cbn [snd] in Hv.
    destruct (plain_data_entry v Hpv) as [Ho Hf].
    cbn [render_dict_items]. rewrite Ho, (Hv Hpv). cbn [bind].
    rewrite Hf. cbn [bind].
    rewrite (dict_set_fresh k v ret) by (apply Hfresh; now left).
    rewrite (IH Hp Hu); [now rewrite <- app_assoc|].
    intros k' Hk'. rewrite map_app, in_app_iff. cbn.
    intros [Hin | [<- | []]]; [|contradiction].
    revert Hin. apply Hfresh. now right.
Qed.

(** Data without text comes out of [render_template] as it went in:
    [None], booleans, integers, floats, and the lists and dictionaries
    made of them are returned equal to the template, without any call of
    the template engine (at any depth allowed, and for any scope). *)
Theorem plain_data_is_returned_unchanged (fuel : nat) (args : scope)
  (template : value) :
  plain_data template = true ->
  render_template fuel template args = Ok template.
Proof.
  induction template as [| b | z | f | s | l IH | l IH | d IH |]
    using value_ind'; intros H; cbn [plain_data] in H; try discriminate;
    try reflexivity.
  - cbn [render_template].
    now rewrite (render_list_items_plain _ l IH H []).
  - apply andb_true_iff in H as [Hu Hp]. cbn [render_template].
    rewrite (render_dict_items_plain _ d IH Hp Hu []); [reflexivity|].
    intros k _ [].
Qed.

(** A condition that is the name of a variable absent from the scope is
    false: [evaluate_condition] returns [False] for it and raises
    nothing. *)
Theorem absent_variable_condition_is_false (fuel : nat) (n : string)
  (tmp_vars : scope) :
  is_variable_name n = true ->
  dict_get n tmp_vars = None ->
  n <> "omit" ->
  has_key "self" tmp_vars = false ->
  evaluate_condition (S fuel) n tmp_vars = Ok false.
Proof.
  intros Hn Hget Homit Hs.
  rewrite (evaluate_condition_name fuel n tmp_vars Hn Hs).
  unfold resolve. rewrite Hget.
  destruct (String.eqb_spec n "omit") as [->|_]; [contradiction|].
  reflexivity.
Qed.

End TemplateMore.

(** ** [to_nice_json]: the indentation of the lines *)

Section NiceJsonFacts.

Context {F : PyFloat}.

Import PyStr.
Local Open Scope string_scope.

Lemma split_lines_nonempty (s : string) : split_lines s <> [].
Proof.
  destruct s as [|c r]; cbn [split_lines]; [discriminate|].
  destruct (Ascii.eqb c LF); [discriminate|].
  destruct (split_lines r); discriminate.
Qed.

Lemma join_split_lines (s : string) : join_lines (split_lines s) = s.
Proof.
  induction s as [|c r IH]; [reflexivity|].
  cbn [split_lines].
  destruct (Ascii.eqb_spec c LF) as [->|_].
  - pose proof (split_lines_nonempty r) as Hne.
    cbn [join_lines]. destruct (split_lines r) as [|l ls]; [contradiction|].
    rewrite IH. reflexivity.
  - pose proof (split_lines_nonempty r) as Hne.
    destruct (split_lines r) as [|l ls]; [contradiction|].
    rewrite <- IH. destruct ls; reflexivity.
Qed.

Lemma split_lines_no_lf (s : string) :
  has_char LF s = false -> split_lines s = [s].
Proof.
  induction s as [|c r IH]; [reflexivity|].
  cbn [has_char split_lines]. intros H.
  apply orb_false_iff in H as [Hc Hr]. rewrite Hc, (IH Hr). reflexivity.
Qed.

Lemma split_lines_app_lf (a b : string) :
  has_char LF a = false ->
  split_lines (a ++ String LF b) = a :: split_lines b.
Proof.
  induction a as [|c a IH]; cbn [String.append has_char split_lines].
  - intros _. now rewrite Ascii.eqb_refl.
  - intros H. apply orb_false_iff in H as [Hc Ha].
    rewrite Hc, (IH Ha). reflexivity.
Qed.

Lemma split_join_lines (lines : list string) :
  lines <> [] ->
  Forall (fun l => has_char LF l = false) lines ->
  split_lines (join_lines lines) = lines.
Proof.
  intros Hne H. induction H as [|l rest Hl Hrest IH]; [contradiction|].
  destruct rest as [|l' rest'].
  - cbn [join_lines]. now apply split_lines_no_lf.
  - change (join_lines (l :: l' :: rest'))
      with (l ++ String LF (join_lines (l' :: rest'))).
    rewrite (split_lines_app_lf _ _ Hl), IH; [reflexivity | discriminate].
Qed.

Lemma split_lines_no_lf_each (s : string) :
  Forall (fun l => has_char LF l = false) (split_lines s).
Proof.
  induction s as [|c r IH]; cbn [split_lines].
  - constructor; [reflexivity | constructor].
  - destruct (Ascii.eqb c LF) eqn:Hc.
    + constructor; [reflexivity | exact IH].
    + destruct (split_lines r) as [|l ls].
      * constructor; [cbn; now rewrite Hc | constructor].
      * inversion IH; subst. constructor; [|assumption].
        cbn [has_char]. now rewrite Hc.
Qed.

Lemma spaces_no_lf (n : nat) (l : string) :
  has_char LF l = false -> has_char LF (spaces n ++ l) = false.
Proof. intros H. induction n as [|n IH]; [exact H | exact IH]. Qed.

(** [to_nice_json] with a positive [prefix_indent] puts that many spaces
    in front of every line of the JSON text, the empty lines too, and
    keeps the number of lines; with [prefix_indent] absent, zero or
    negative the text is returned as [json.dumps] made it. *)
Theorem nice_json_prefixes_every_line
  (json_dumps : value -> option Z -> outcome string)
  (arg : value) (indent : Z) (out : string) :
  json_dumps arg (Some indent) = Ok out ->
  filter_to_nice_json json_dumps arg indent None = Ok out
  /\ forall z : Z,
       ((z <= 0)%Z ->
        filter_to_nice_json json_dumps arg indent (Some z) = Ok out)
       /\ ((0 < z)%Z ->
           exists r : string,
             filter_to_nice_json json_dumps arg indent (Some z) = Ok r
             /\ split_lines r
                = map (fun line => spaces (Z.to_nat z) ++ line)
                      (split_lines out)).
Proof.
  intros E. unfold filter_to_nice_json, filter_to_json. rewrite E. cbn [bind].
  split; [reflexivity|]. intros z. split.
  - intros Hz. destruct (Z.eqb_spec z 0) as [_|Hnz]; [reflexivity|].
    replace (Z.to_nat z) with 0 by lia. cbn [spaces String.append].
    rewrite map_id. now rewrite join_split_lines.
  - intros Hz. destruct (Z.eqb_spec z 0) as [->|_]; [lia|].
    eexists. split; [reflexivity|].
    apply split_join_lines.
    + pose proof (split_lines_nonempty out).
      destruct (split_lines out); [contradiction | discriminate].
    + apply Forall_map. eapply Forall_impl; [|apply split_lines_no_lf_each].
      intros l Hl. now apply spaces_no_lf.
Qed.

End NiceJsonFacts.

(** ** Variables in text, variables through a filter *)

Section SubstitutionFacts.

Context {F : PyFloat}.

Import PyStr Jinja.
Local Open Scope string_scope.









(** *** Through a filter *)

Lemma lex_filter_rest (f : filter) (toks : list etok) (out : list ttok) :
  lex (InTag false toks "") out ("| " ++ filter_name f ++ " }}")
  = match close_tag false ((toks ++ [TPipe]) ++ [TName (filter_name f)])%list
    with
    | Some t => lex (InData "") (out ++ [t])%list ""
    | None => None
    end.
Proof.
  destruct f; cbn [filter_name].
  - exact (lex_close false ((toks ++ [TPipe]) ++ [TName "output_int"])%list
             out "").
  - exact (lex_close false ((toks ++ [TPipe]) ++ [TName "output_float"])%list
             out "").
  - exact (lex_close false ((toks ++ [TPipe]) ++ [TName "output_bool"])%list
             out "").
Qed.

Lemma close_filtered_name (n : string) (f : filter) :
  is_variable_name n = true ->
  close_tag false (([TName n] ++ [TPipe]) ++ [TName (filter_name f)])%list
  = Some (TOut (EFilter (EName n) f)).
Proof.
  intros H. destruct (variable_name_inv n H) as (_ & _ & Hp).
  unfold close_tag. cbn [List.app parse_expr]. rewrite Hp.
  destruct f; reflexivity.
Qed.

Lemma from_string_filtered (n : string) (f : filter) :
  is_variable_name n = true ->
  from_string (filtered_output_of n f)
  = Some [NOutput (EFilter (EName n) f)].
Proof.
  intros Hn. destruct (variable_name_inv n Hn) as (Hchars & _ & _).
  assert (Hall : no_linebreak (filtered_output_of n f) = true).
  { unfold no_linebreak, filtered_output_of. rewrite !all_chars_app.
    fold (no_linebreak n). rewrite (variable_name_no_linebreak n Hchars).
    now destruct f. }
  unfold from_string.
  rewrite (no_linebreak_not_odd _ Hall), (no_linebreak_normalize _ Hall).
  unfold filtered_output_of.
  change ("{{ " ++ n ++ " | " ++ filter_name f ++ " }}")
    with (String "{" (String "{" (String " "
            (n ++ String " " ("| " ++ filter_name f ++ " }}"))))).
  rewrite lex_open_output, (lex_tag_name n false _ _ _ Hn).
  rewrite lex_filter_rest.
  change (([] ++ [TName n]) ++ [TPipe])%list with ([TName n] ++ [TPipe])%list.
  rewrite (close_filtered_name n f Hn). reflexivity.
Qed.

End SubstitutionFacts.

(** ** Typed output: a filter inside an entry *)

Section TypedOutputFacts.

Context {F : PyFloat}.

Import PyStr Jinja.
Local Open Scope string_scope.

Lemma has_char_app (c : ascii) (a b : string) :
  has_char c (a ++ b) = has_char c a || has_char c b.
Proof.
  induction a as [|x a IH]; cbn [String.append has_char]; [reflexivity|].
  now rewrite IH, orb_assoc.
Qed.

Lemma no_brace_no_template (s : string) :
  has_char "{" s = false -> contains "{{" s || contains "{%" s = false.
Proof.
  induction s as [|c s IH]; [reflexivity|].
  cbn [has_char]. intros H. apply orb_false_iff in H as [Hc Hs].
  specialize (IH Hs). apply orb_false_iff in IH as [I1 I2].
  cbn [contains startswith]. rewrite I1, I2.
  rewrite Ascii.eqb_sym, Hc. reflexivity.
Qed.

Lemma str_of_int_no_brace (z : Z) : has_char "{" (str_of_int z) = false.
Proof.
  assert (G : forall s, all_chars is_dec_digit s = true ->
                        has_char "{" s = false).
  { induction s as [|c s IH]; cbn [all_chars has_char]; [reflexivity|].
    intros H. apply andb_true_iff in H as [Hc Hs]. rewrite (IH Hs).
    destruct c as [[|] [|] [|] [|] [|] [|] [|] [|]]; cbv in Hc |- *;
      congruence. }
  unfold str_of_int.
  destruct z as [|p|p]; cbn [Z.to_int NilZero.string_of_int]; try reflexivity.
  - unfold NilZero.string_of_uint.
    destruct (Pos.to_uint p) eqn:E; try reflexivity;
      rewrite <- E; apply G, digits_of_uint.
  - cbn [has_char]. replace (Ascii.eqb "-" "{") with false by reflexivity.
    unfold NilZero.string_of_uint.
    destruct (Pos.to_uint p) eqn:E; try reflexivity;
      rewrite <- E; apply G, digits_of_uint.
Qed.

(** The rendering of [{{ n | f }}]: the marker that the filter makes of
    the text of [n]. *)
Lemma render_source_filtered (fuel : nat) (args : scope) (n : string)
  (f : filter) (p : string) :
  is_variable_name n = true ->
  py_str (resolve args n) = Ok p ->
  has_char "{" p = false ->
  apply_filter f (resolve args n)
  = Ok (match f with
        | output_int => "__int__" ++ p ++ "__int__"
        | output_float => "__float__" ++ p ++ "__float__"
        | output_bool => "__bool__" ++ p ++ "__bool__"
        end)
  /\ render_source (S fuel) (filtered_output_of n f) args
     = Ok (match f with
           | output_int => "__int__" ++ p ++ "__int__"
           | output_float => "__float__" ++ p ++ "__float__"
           | output_bool => "__bool__" ++ p ++ "__bool__"
           end).
Proof.
  intros Hn Hp Hb.
  assert (Ha : apply_filter f (resolve args n)
               = Ok (match f with
                     | output_int => "__int__" ++ p ++ "__int__"
                     | output_float => "__float__" ++ p ++ "__float__"
                     | output_bool => "__bool__" ++ p ++ "__bool__"
                     end)).
  { destruct f; cbn [apply_filter]; unfold filter_output_int,
      filter_output_float, filter_output_bool; now rewrite Hp. }
  split; [exact Ha|].
  cbn [render_source]. rewrite (from_string_filtered n f Hn).
  cbn [render_nodes render_node eval_expr bind]. rewrite Ha. cbn [bind].
  assert (Hm : forall m, m = (match f with
                              | output_int => "__int__" ++ p ++ "__int__"
                              | output_float => "__float__" ++ p ++ "__float__"
                              | output_bool => "__bool__" ++ p ++ "__bool__"
                              end) ->
                         contains "{{" m || contains "{%" m = false).
  { intros m ->. apply no_brace_no_template.
    destruct f; rewrite !has_char_app, Hb; reflexivity. }
  cbn [finalize]. rewrite (Hm _ eq_refl). cbn [bind py_str].
  now rewrite app_nil_r_str.
Qed.

Lemma filtered_output_not_omit (n : string) (f : filter) :
  is_omit (VStr (filtered_output_of n f)) = false.
Proof. reflexivity. Qed.

Lemma render_dict_entry (fuel : nat) (args : scope) (k s r : string) :
  is_omit (VStr s) = false ->
  env_render fuel s args = Ok r ->
  render_template fuel (VDict [(k, VStr s)]) args
  = (x <- type_fixup (VStr r) ;; Ok (VDict [(k, x)])).
Proof.
  intros Ho E. cbn [render_template render_dict_items]. rewrite Ho.
  cbn [render_template]. rewrite E. cbn [bind].
  now destruct (type_fixup (VStr r)).
Qed.


(** An integer or a boolean of the scope goes through the template layer
    unharmed when its filter is used: in an entry of a mapping,
    [{{ n | output_int }}] gives back the integer held by [n] and
    [{{ n | output_bool }}] the boolean, while the bare [{{ n }}] gives
    the integer's decimal text. *)
Theorem scope_numbers_survive_their_filter (fuel : nat) (args : scope)
  (n k : string) :
  is_variable_name n = true ->
  has_key "self" args = false ->
  (forall z : Z,
      dict_get n args = Some (VInt z) ->
      render_template (S fuel)
        (VDict [(k, VStr (filtered_output_of n output_int))]) args
      = Ok (VDict [(k, VInt z)])
      /\ render_template (S fuel) (VDict [(k, VStr (output_of n))]) args
         = Ok (VDict [(k, VStr (str_of_int z))]))
  /\ (forall b : bool,
         dict_get n args = Some (VBool b) ->
         render_template (S fuel)
           (VDict [(k, VStr (filtered_output_of n output_bool))]) args
         = Ok (VDict [(k, VBool b)])).
Proof.
  intros Hn Hs. split.
  - intros z Hz.
    assert (Hr : resolve args n = VInt z) by (unfold resolve; now rewrite Hz).
    split.
    + rewrite (render_dict_entry _ _ k _ ("__int__" ++ str_of_int z ++ "__int__")
                 (filtered_output_not_omit n _)).
      * rewrite (type_fixup_int _ (str_of_int_single_line z)).
        now rewrite int_of_str_of_int.
      * rewrite (env_render_no_self _ _ args _ Hs
                   (from_string_filtered n output_int Hn)).
        apply (render_source_filtered fuel args n output_int (str_of_int z) Hn).
        -- now rewrite Hr.
        -- apply str_of_int_no_brace.
    + rewrite (render_dict_entry _ _ k _ (str_of_int z)).
      * assert (Hm : marker_match (str_of_int z) = None).
        { unfold str_of_int.
          destruct z as [|p|p]; cbn [Z.to_int NilZero.string_of_int];
            try reflexivity.
          unfold NilZero.string_of_uint.
          destruct (Pos.to_uint p); reflexivity. }
        cbn [type_fixup]. now rewrite Hm.
      * reflexivity.
      * rewrite (env_render_no_self _ _ args _ Hs (from_string_output_of n Hn)).
        rewrite (render_source_output fuel n args Hn), Hr. reflexivity.
  - intros b Hb.
    assert (Hr : resolve args n = VBool b) by (unfold resolve; now rewrite Hb).
    rewrite (render_dict_entry _ _ k _
               ("__bool__" ++ (if b then "True" else "False") ++ "__bool__")
               (filtered_output_not_omit n _)).
    + now destruct b.
    + rewrite (env_render_no_self _ _ args _ Hs
                 (from_string_filtered n output_bool Hn)).
      apply (render_source_filtered fuel args n output_bool _ Hn).
      * rewrite Hr. now destruct b.
      * now destruct b.
Qed.

End TypedOutputFacts.

(** ** The Marathon plugin *)

Section CamelCaseFacts.

Import PyStr Marathon.
Local Open Scope string_scope.

Lemma string_ind2 (P : string -> Prop) :
  P "" ->
  (forall c, P (String c "")) ->
  (forall c d s, P s -> P (String d s) -> P (String c (String d s))) ->
  forall s, P s.
Proof.
  intros H0 H1 H2 s.
  assert (G : P s /\ forall c, P (String c s)).
  { induction s as [|d s [IH1 IH2]]; split; auto. }
  exact (proj1 G).
Qed.

Lemma upper_char_cases (d : ascii) :
  is_lower_az d = true ->
  is_lower_az (upper_char d) = false /\ Ascii.eqb (upper_char d) "_" = false.
Proof.
  destruct d as [[|] [|] [|] [|] [|] [|] [|] [|]]; cbv; intros H;
    try discriminate; split; reflexivity.
Qed.

Lemma underscore_not_lower : is_lower_az "_" = false.
Proof. reflexivity. Qed.

Lemma camelcase_unfold (c : ascii) (rest : string) :
  underscore_to_camelcase (String c rest)
  = if Ascii.eqb c "_" then
      match rest with
      | String d rest' =>
          if is_lower_az d
          then String (upper_char d) (underscore_to_camelcase rest')
          else String c (underscore_to_camelcase rest)
      | EmptyString => String c EmptyString
      end
    else String c (underscore_to_camelcase rest).
Proof. reflexivity. Qed.

Lemma has_underscore_lower_unfold (c : ascii) (rest : string) :
  has_underscore_lower (String c rest)
  = (Ascii.eqb c "_"
     && match rest with
        | String d _ => is_lower_az d
        | EmptyString => false
        end)
    || has_underscore_lower rest.
Proof. reflexivity. Qed.

(** A lower-case letter at the head of the result was at the head of
    the argument. *)
Lemma camelcase_head (s : string) :
  match underscore_to_camelcase s with
  | String h _ =>
      is_lower_az h = true ->
      match s with String h' _ => h' = h | EmptyString => False end
  | EmptyString => True
  end.
Proof.
  destruct s as [|c [|d s]]; cbn [underscore_to_camelcase].
  - exact I.
  - destruct (Ascii.eqb c "_"); auto.
  - destruct (Ascii.eqb_spec c "_") as [->|_]; [|auto].
    destruct (is_lower_az d) eqn:Hd.
    + destruct (upper_char_cases d Hd) as [-> _]. discriminate.
    + now rewrite underscore_not_lower.
Qed.

Lemma camelcase_head_not_lower (d : ascii) (s : string) :
  is_lower_az d = false ->
  match underscore_to_camelcase (String d s) with
  | String h _ => is_lower_az h
  | EmptyString => false
  end = false.
Proof.
  intros Hd. pose proof (camelcase_head (String d s)) as H.
  destruct (underscore_to_camelcase (String d s)) as [|h r]; [reflexivity|].
  destruct (is_lower_az h) eqn:Hh; [|reflexivity].
  specialize (H eq_refl). subst h. congruence.
Qed.

Lemma camelcase_no_underscore_lower (s : string) :
  has_underscore_lower (underscore_to_camelcase s) = false.
Proof.
  induction s as [| c | c d s IH1 IH2] using string_ind2.
  - reflexivity.
  - rewrite camelcase_unfold. destruct (Ascii.eqb c "_") eqn:E.
    + cbn. now rewrite andb_false_r.
    + cbn [underscore_to_camelcase]. rewrite has_underscore_lower_unfold.
      now rewrite E.
  - rewrite camelcase_unfold.
    destruct (Ascii.eqb c "_") eqn:Hc.
    + destruct (is_lower_az d) eqn:Hd.
      * rewrite has_underscore_lower_unfold, IH1.
        destruct (upper_char_cases d Hd) as [_ ->]. reflexivity.
      * rewrite has_underscore_lower_unfold, IH2.
        rewrite (camelcase_head_not_lower d s Hd).
        now rewrite andb_false_r.
    + rewrite has_underscore_lower_unfold, IH2, Hc. reflexivity.
Qed.

Lemma camelcase_fixed (s : string) :
  has_underscore_lower s = false -> underscore_to_camelcase s = s.
Proof.
  induction s as [| c | c d s IH1 IH2] using string_ind2.
  - reflexivity.
  - intros _. cbn. now destruct (Ascii.eqb c "_").
  - rewrite has_underscore_lower_unfold. intros H.
    apply orb_false_iff in H as [Hhead Hrest].
    rewrite camelcase_unfold.
    destruct (Ascii.eqb c "_"); cbn [andb] in Hhead.
    + rewrite Hhead. now rewrite (IH2 Hrest).
    + now rewrite (IH2 Hrest).
Qed.

(** The result of [underscore_to_camelcase] holds no underscore followed
    by a lower-case letter, so that the function is idempotent; and it
    returns its argument unchanged exactly when the argument holds no
    such pair (an underscore before a digit, a capital or another
    underscore, or at the end, stays). *)
Theorem camelcase_leaves_no_pair (value : string) :
  has_underscore_lower (underscore_to_camelcase value) = false
  /\ underscore_to_camelcase (underscore_to_camelcase value)
     = underscore_to_camelcase value
  /\ (underscore_to_camelcase value = value
      <-> has_underscore_lower value = false).
Proof.
  pose proof (camelcase_no_underscore_lower value) as H.
  split; [exact H|]. split; [now apply camelcase_fixed|].
  split; [|apply camelcase_fixed].
  intros E. now rewrite <- E.
Qed.

End CamelCaseFacts.

Section BuilderFacts.

Context {F : PyFloat}.

Import PyStr Marathon.
Local Open Scope string_scope.

Lemma dict_get_set_same (k : string) (v : value) (d : list (string * value)) :
  dict_get k (dict_set k v d) = Some v.
Proof.
  induction d as [|[k' v'] d IH]; cbn [dict_set dict_get].
  - now rewrite String.eqb_refl.
  - destruct (k =? k') eqn:E; cbn [dict_get]; rewrite ?String.eqb_refl, ?E;
      auto.
Qed.

Lemma dict_get_set_other (k k' : string) (v : value)
  (d : list (string * value)) :
  k <> k' -> dict_get k (dict_set k' v d) = dict_get k d.
Proof.
  intros Hk. induction d as [|[k0 v0] d IH]; cbn [dict_set dict_get].
  - destruct (String.eqb_spec k k'); [contradiction | reflexivity].
  - destruct (String.eqb_spec k' k0) as [->|Hk0]; cbn [dict_get].
    + destruct (String.eqb_spec k k0); [contradiction | reflexivity].
    + now rewrite IH.
Qed.

Lemma dict_set_nonempty (k : string) (v : value) (d : list (string * value)) :
  dict_set k v d <> [].
Proof. destruct d as [|[k' v'] d]; cbn; [|destruct (k =? k')]; discriminate. Qed.

Lemma dict_remove_absent (k : string) (d : list (string * value)) :
  dict_get k d = None -> dict_remove k d = d.
Proof.
  induction d as [|[k' v] d IH]; cbn [dict_get dict_remove]; [reflexivity|].
  destruct (k =? k'); [discriminate|]. intros H. now rewrite (IH H).
Qed.

Lemma dict_get_remove (k : string) (d : list (string * value)) :
  dict_get k (dict_remove k d) = None.
Proof.
  induction d as [|[k' v] d IH]; cbn [dict_remove]; [reflexivity|].
  destruct (k =? k') eqn:E; [exact IH|]. cbn [dict_get]. now rewrite E.
Qed.

(** *** [build_unreachable_strategy] *)

Lemma dict_set_entries (P : string * value -> Prop) (k : string) (v : value)
  (d : list (string * value)) :
  P (k, v) -> Forall P d -> Forall P (dict_set k v d).
Proof.
  intros Hkv. induction 1 as [|[k' v'] d Hx Hd IH]; cbn [dict_set].
  - constructor; [exact Hkv | constructor].
  - destruct (k =? k'); constructor; auto.
Qed.

Lemma unreachable_fields_entries (section : value) (names fields : list string) :
  (forall f, In f fields -> In f names) ->
  forall strategy out,
    Forall (strategy_entry_ok names) strategy ->
    unreachable_fields section fields strategy = Ok out ->
    Forall (strategy_entry_ok names) out.
Proof.
  induction fields as [|field rest IH]; intros Hsub strategy out Hs H.
  - cbn in H. now injection H as <-.
  - cbn [unreachable_fields] in H.
    destruct (py_getitem section field) as [v| | |]; cbn [bind] in H;
      try discriminate.
    assert (Hrest : forall f, In f rest -> In f names)
      by (intros f Hf; apply Hsub; now right).
    assert (Hconv : forall z,
               unreachable_fields section rest
                 (dict_set (underscore_to_camelcase field) (VInt z) strategy)
               = Ok out ->
               Forall (strategy_entry_ok names) out).
    { intros z Hz. eapply (IH Hrest); [|exact Hz].
      apply dict_set_entries; [|exact Hs].
      split; [|now exists z]. cbn [fst]. apply in_map. apply Hsub. now left. }
    destruct v; try (now apply (IH Hrest strategy out));
      destruct (int_of_value _) as [z'| | |] eqn:Ez; cbn [bind] in H;
      try discriminate; now apply (Hconv z').
Qed.

(** When [build_unreachable_strategy] returns, every key of [data] other
    than [unreachableStrategy] holds what it held; either [data] is as it
    was, or [unreachableStrategy] is a non-empty dictionary whose keys are
    among [inactiveAfterSeconds] and [expungeAfterSeconds] and whose
    values are integers.  No entry is made for a field that is [None]: with
    both fields [None] the data is returned as it was. *)
Theorem unreachable_strategy_result (app_vars : scope)
  (data data' : list (string * value)) :
  build_unreachable_strategy app_vars data = Ok data' ->
  (forall k, k <> "unreachableStrategy" -> dict_get k data' = dict_get k data)
  /\ (data' = data
      \/ exists strategy,
           strategy <> []
           /\ dict_get "unreachableStrategy" data' = Some (VDict strategy)
           /\ Forall (fun kv =>
                        (fst kv = "inactiveAfterSeconds"
                         \/ fst kv = "expungeAfterSeconds")
                        /\ exists z : Z, snd kv = VInt z) strategy)
  /\ (forall section,
         dict_get "APP" app_vars = Some (VDict section) ->
         forall fields,
           dict_get "unreachable_strategy" section = Some (VDict fields) ->
           dict_get "inactive_after_seconds" fields = Some VNone ->
           dict_get "expunge_after_seconds" fields = Some VNone ->
           data' = data).
Proof.
  intros H. unfold build_unreachable_strategy in H.
  destruct (py_getitem (VDict app_vars) "APP") as [app| | |] eqn:Eapp;
    cbn [bind] in H; try discriminate.
  destruct (py_getitem app "unreachable_strategy") as [sec| | |] eqn:Esec;
    cbn [bind] in H; try discriminate.
  destruct (unreachable_fields sec _ []) as [strategy| | |] eqn:Es;
    cbn [bind] in H; try discriminate.
  pose proof (unreachable_fields_entries sec
                ["inactive_after_seconds"; "expunge_after_seconds"]
                ["inactive_after_seconds"; "expunge_after_seconds"]
                (fun f Hf => Hf) [] strategy (Forall_nil _) Es) as Hent.
  split; [|split].
  - intros k Hk. destruct strategy; injection H as <-; [reflexivity|].
    now apply dict_get_set_other.
  - destruct strategy as [|kv strategy]; injection H as <-; [now left|].
    right. exists (kv :: strategy). split; [discriminate|].
    split; [apply dict_get_set_same|].
    eapply Forall_impl; [|exact Hent].
    intros [k v] [Hin Hz]. split; [|exact Hz].
    cbn in Hin. destruct Hin as [<- | [<- | []]]; [now left | now right].
  - intros section Happ fields Hsec Hi He.
    cbn [py_getitem] in Eapp. rewrite Happ in Eapp. injection Eapp as <-.
    cbn [py_getitem] in Esec. rewrite Hsec in Esec. injection Esec as <-.
    cbn [unreachable_fields py_getitem] in Es. rewrite Hi, He in Es.
    cbn [bind] in Es. injection Es as <-. now injection H as <-.
Qed.

(** *** [build_fetch_config] *)

Lemma fetch_loop_entries (fuel : nat) (items : list value) :
  forall idx tmp_vars cfg out,
    Forall fetch_entry_ok cfg ->
    fetch_loop fuel items idx tmp_vars cfg = Ok out ->
    Forall fetch_entry_ok out.
Proof.
  induction items as [|fetch rest IH]; intros idx tmp_vars cfg out Hc H.
  - cbn in H. now injection H as <-.
  - cbn [fetch_loop] in H.
    destruct fetch; try discriminate.
    destruct (fetch_selected fuel _ items) as [[|]| | |]; cbn [bind] in H;
      try discriminate.
    + apply (IH _ _ _ out) in H; [exact H|].
      apply Forall_app. split; [exact Hc|].
      constructor; [|constructor].
      eexists. split; [reflexivity | apply dict_get_remove].
    + now apply (IH _ _ _ out) in H.
Qed.

(** When [build_fetch_config] returns, every key of [data] other than
    [fetch] holds what it held; either [data] is as it was (no entry was
    selected), or [fetch] is a non-empty list of dictionaries none of
    which has a [condition] key: the conditions do not reach the
    output. *)
Theorem fetch_config_has_no_condition (fuel : nat) (app_vars : scope)
  (data data' : list (string * value)) :
  build_fetch_config fuel app_vars data = Ok data' ->
  (forall k, k <> "fetch" -> dict_get k data' = dict_get k data)
  /\ (data' = data
      \/ exists cfg,
           cfg <> []
           /\ dict_get "fetch" data' = Some (VList cfg)
           /\ Forall (fun e => exists d, e = VDict d
                                         /\ dict_get "condition" d = None)
                     cfg).
Proof.
  intros H. unfold build_fetch_config in H.
  destruct (py_getitem (VDict app_vars) "APP") as [app| | |];
    cbn [bind] in H; try discriminate.
  destruct (py_getitem app "fetch") as [fetch| | |];
    cbn [bind] in H; try discriminate.
  destruct (py_iter fetch) as [items| | |]; cbn [bind] in H; try discriminate.
  destruct (fetch_loop fuel items 0 app_vars []) as [cfg| | |] eqn:El;
    cbn [bind] in H; try discriminate.
  pose proof (fetch_loop_entries fuel items 0 app_vars [] cfg
                (Forall_nil _) El) as Hent.
  split.
  - intros k Hk. destruct cfg; injection H as <-; [reflexivity|].
    now apply dict_get_set_other.
  - destruct cfg as [|e cfg]; injection H as <-; [now left|].
    right. exists (e :: cfg). split; [discriminate|].
    split; [apply dict_get_set_same | exact Hent].
Qed.

Lemma fetch_loop_unconditional (fuel : nat) (ds : list (list (string * value))) :
  Forall (fun d => dict_get "condition" d = None) ds ->
  forall idx tmp_vars cfg,
    fetch_loop fuel (map VDict ds) idx tmp_vars cfg
    = Ok (cfg ++ map VDict ds)%list.
Proof.
  induction 1 as [|d ds Hd _ IH]; intros idx tmp_vars cfg.
  - cbn. now rewrite app_nil_r.
  - cbn [map fetch_loop]. unfold fetch_selected. rewrite Hd. cbn [bind].
    rewrite IH, (dict_remove_absent _ d Hd). now rewrite <- app_assoc.
Qed.

(** Fetch entries without a [condition] key are all kept, unchanged and
    in their order, and no condition is evaluated (any depth allowed
    will do); an empty list leaves [data] without a [fetch] key of its
    own. *)
Theorem unconditional_fetch_entries_are_kept (fuel : nat) (app_vars : scope)
  (section : list (string * value)) (ds : list (list (string * value)))
  (data : list (string * value)) :
  dict_get "APP" app_vars = Some (VDict section) ->
  dict_get "fetch" section = Some (VList (map VDict ds)) ->
  Forall (fun d => dict_get "condition" d = None) ds ->
  build_fetch_config fuel app_vars data
  = Ok (match ds with
        | [] => data
        | _ => dict_set "fetch" (VList (map VDict ds)) data
        end).
Proof.
  intros Happ Hfetch Hds. unfold build_fetch_config.
  cbn [py_getitem]. rewrite Happ. cbn [bind py_getitem]. rewrite Hfetch.
  cbn [bind py_iter].
  rewrite (fetch_loop_unconditional fuel ds Hds). cbn [bind app].
  now destruct ds.
Qed.

Lemma has_key_set_other (k k' : string) (v : value) (d : scope) :
  k <> k' -> has_key k (dict_set k' v d) = has_key k d.
Proof. intros Hk. unfold has_key. now rewrite dict_get_set_other. Qed.

Lemma fetch_loop_by_name (fuel : nat) (app_vars : scope)
  (ds : list (list (string * value))) :
  Forall (fun d => fetch_condition_is_name d = true) ds ->
  forall idx tmp_vars cfg,
    has_key "self" tmp_vars = false ->
    (forall n, n <> "fetch" -> n <> "fetch_index" ->
               dict_get n tmp_vars = dict_get n app_vars) ->
    fetch_loop (S fuel) (map VDict ds) idx tmp_vars cfg
    = Ok (cfg ++ map (fun d => VDict (dict_remove "condition" d))
                     (List.filter (fetch_kept app_vars) ds))%list.
Proof.
  induction 1 as [|d ds Hd _ IH]; intros idx tmp_vars cfg Hself Hvars.
  - cbn. now rewrite app_nil_r.
  - cbn [map fetch_loop List.filter].
    set (tmp_vars' := dict_set "fetch_index" (VInt (Z.of_nat idx))
                        (dict_set "fetch" (VDict d) tmp_vars)).
    assert (Hself' : has_key "self" tmp_vars' = false).
    { unfold tmp_vars'. rewrite !has_key_set_other by discriminate.
      exact Hself. }
    assert (Hvars' : forall n, n <> "fetch" -> n <> "fetch_index" ->
                               dict_get n tmp_vars' = dict_get n app_vars).
    { intros n H1 H2. unfold tmp_vars'.
      rewrite !dict_get_set_other by assumption. now apply Hvars. }
    unfold fetch_selected, fetch_kept, fetch_condition_is_name in *.
    destruct (dict_get "condition" d) as [c|].
    + destruct c; try discriminate.
      apply andb_prop in Hd as [Hd Hi]. apply andb_prop in Hd as [Hn Hf].
      apply negb_true_iff in Hf, Hi.
      apply String.eqb_neq in Hf, Hi.
      rewrite (evaluate_condition_name fuel _ tmp_vars' Hn Hself').
      cbn [bind].
      assert (Hr : resolve tmp_vars' s = resolve app_vars s)
        by (unfold resolve; now rewrite Hvars').
      rewrite Hr. destruct (py_bool (resolve app_vars s)).
      * rewrite (IH _ _ _ Hself' Hvars'). cbn [map].
        now rewrite <- app_assoc.
      * apply (IH _ _ _ Hself' Hvars').
    + cbn [bind]. rewrite (IH _ _ _ Hself' Hvars'). cbn [map].
      now rewrite <- app_assoc.
Qed.

(** The fetch entries whose [condition] is the name of a variable are
    selected by the truth value of that variable in [app_vars]: the fetch
    configuration is the list of the entries without a condition and of
    those whose variable is true, in their order and without their
    [condition] key; when none is selected [data] gets no [fetch] key.
    The names [fetch] and [fetch_index] are set aside because the loop
    binds them itself. *)
Theorem fetch_entries_selected_by_variable (fuel : nat) (app_vars : scope)
  (section : list (string * value)) (ds : list (list (string * value)))
  (data : list (string * value)) :
  has_key "self" app_vars = false ->
  dict_get "APP" app_vars = Some (VDict section) ->
  dict_get "fetch" section = Some (VList (map VDict ds)) ->
  Forall (fun d => fetch_condition_is_name d = true) ds ->
  build_fetch_config (S fuel) app_vars data
  = Ok (match List.filter (fetch_kept app_vars) ds with
        | [] => data
        | kept =>
            dict_set "fetch"
              (VList (map (fun d => VDict (dict_remove "condition" d)) kept))
              data
        end).
Proof.
  intros Hself Happ Hfetch Hds. unfold build_fetch_config.
  cbn [py_getitem]. rewrite Happ. cbn [bind py_getitem]. rewrite Hfetch.
  cbn [bind py_iter].
  rewrite (fetch_loop_by_name fuel app_vars ds Hds 0 app_vars []
             Hself (fun n _ _ => eq_refl)).
  cbn [bind]. change ([] ++ ?x)%list with x.
  now destruct (List.filter (fetch_kept app_vars) ds).
Qed.

(** *** [build_health_checks] *)

Lemma render_dict_items_other (render : value -> outcome value) (k : string)
  (items : list (string * value)) :
  ~ In k (map fst items) ->
  forall ret out,
    render_dict_items render items ret = Ok out ->
    dict_get k out = dict_get k ret.
Proof.
  induction items as [|[k0 v0] items IH]; intros Hk ret out H.
  - cbn in H. now injection H as <-.
  - cbn [map fst In] in Hk. cbn [render_dict_items] in H.
    destruct (is_omit v0); [apply IH; tauto|].
    destruct (render v0) as [r| | |]; cbn [bind] in H; try discriminate.
    destruct (type_fixup r) as [x| | |]; cbn [bind] in H; try discriminate.
    rewrite (IH (fun Hin => Hk (or_intror Hin)) _ _ H).
    apply dict_get_set_other. intros ->. apply Hk. now left.
Qed.

Lemma dict_get_in_keys (k : string) (v : value) (d : list (string * value)) :
  dict_get k d = Some v -> In k (map fst d).
Proof.
  induction d as [|[k' v'] d IH]; cbn [dict_get map fst In]; [discriminate|].
  destruct (String.eqb_spec k k') as [->|_]; [now left | right; auto].
Qed.

Lemma render_dict_items_key (render : value -> outcome value) (k : string)
  (v : value) (items : list (string * value)) :
  NoDup (map fst items) ->
  dict_get k items = Some v ->
  is_omit v = false ->
  forall ret out,
    render_dict_items render items ret = Ok out ->
    exists r x, render v = Ok r /\ type_fixup r = Ok x
                /\ dict_get k out = Some x.
Proof.
  induction items as [|[k0 v0] items IH]; intros Hnd Hget Hom ret out H;
    [discriminate|].
  cbn [map fst] in Hnd. inversion Hnd as [|? ? Hk0 Hnd']; subst.
  cbn [dict_get] in Hget. cbn [render_dict_items] in H.
  destruct (String.eqb_spec k k0) as [->|Hne].
  - injection Hget as ->. rewrite Hom in H.
    destruct (render v) as [r| | |]; cbn [bind] in H; try discriminate.
    destruct (type_fixup r) as [x| | |] eqn:Ex; cbn [bind] in H;
      try discriminate.
    exists r, x. split; [reflexivity|]. split; [exact Ex|].
    rewrite (render_dict_items_other render k0 items Hk0 _ _ H).
    apply dict_get_set_same.
  - destruct (is_omit v0); [now apply (IH Hnd' Hget Hom ret)|].
    destruct (render v0) as [r| | |]; cbn [bind] in H; try discriminate.
    destruct (type_fixup r) as [x| | |]; cbn [bind] in H; try discriminate.
    now apply (IH Hnd' Hget Hom _ _ H).
Qed.

Lemma dict_set_keys (k k0 : string) (v : value) (d : list (string * value)) :
  In k0 (map fst (dict_set k v d)) -> k0 = k \/ In k0 (map fst d).
Proof.
  induction d as [|[k' v'] d IH]; cbn [dict_set map fst In].
  - intros [<- | []]. now left.
  - destruct (String.eqb_spec k k') as [->|_]; cbn [map fst In].
    + tauto.
    + intros [<- | Hin]; [tauto|]. destruct (IH Hin); tauto.
Qed.

Lemma dict_set_nodup (k : string) (v : value) (d : list (string * value)) :
  NoDup (map fst d) -> NoDup (map fst (dict_set k v d)).
Proof.
  induction d as [|[k' v'] d IH]; cbn [dict_set map fst]; intros Hnd.
  - constructor; [intros [] | constructor].
  - inversion Hnd as [|? ? Hk Hnd']; subst.
    destruct (String.eqb_spec k k') as [->|Hne]; cbn [map fst].
    + now constructor.
    + constructor; [|auto]. intros Hin.
      destruct (dict_set_keys _ _ _ _ Hin) as [-> | Hin']; tauto.
Qed.

Lemma health_check_fields_nodup (check : value) (fields : list string) :
  forall tmp_check out,
    NoDup (map fst tmp_check) ->
    health_check_fields check fields tmp_check = Ok out ->
    NoDup (map fst out).
Proof.
  induction fields as [|field rest IH]; intros tmp_check out Hnd H.
  - cbn in H. now injection H as <-.
  - cbn [health_check_fields] in H.
    destruct (py_getitem check field) as [v| | |]; cbn [bind] in H;
      try discriminate.
    destruct v; try (now apply (IH tmp_check out));
      (apply (IH _ out) in H; [exact H | now apply dict_set_nodup]).
Qed.

Lemma render_command_text (fuel : nat) (args : scope) (r : value) :
  render_template fuel (VStr "COMMAND") args = Ok r -> r = VStr "COMMAND".
Proof.
  cbn [render_template]. unfold env_render.
  assert (E : Jinja.from_string "COMMAND" = Some [NData "COMMAND"])
    by (vm_compute; reflexivity).
  rewrite E. destruct (has_key "self" args); [discriminate|].
  destruct fuel as [|fuel]; [discriminate|].
  cbn [render_source]. rewrite E. cbn. now intros [= <-].
Qed.

Lemma build_health_check_protocol (fuel : nat) (tmp_vars : scope)
  (check out : value) :
  build_health_check fuel tmp_vars check = Ok out ->
  command_check_ok check out.
Proof.
  unfold command_check_ok, build_health_check. intros H.
  destruct (health_check_fields check _ []) as [tmp_check| | |] eqn:Ef;
    cbn [bind] in H; try discriminate.
  destruct (py_getitem check "command") as [command| | |];
    cbn [bind] in H; try discriminate.
  cbn [render_template] in H.
  destruct (render_dict_items _ _ []) as [d| | |] eqn:Er; cbn [bind] in H;
    try discriminate.
  injection H as <-. exists d. split; [reflexivity|].
  intros c [= <-] Hc.
  assert (Hnd : NoDup (map fst tmp_check)).
  { eapply health_check_fields_nodup; [|exact Ef]. constructor. }
  assert (Et : match command with
               | VNone => tmp_check
               | _ =>
                   dict_set "command" (VDict [("value", command)])
                     (dict_set "protocol" (VStr "COMMAND") tmp_check)
               end
               = dict_set "command" (VDict [("value", command)])
                   (dict_set "protocol" (VStr "COMMAND") tmp_check))
    by (destruct command; congruence).
  rewrite Et in Er.
  assert (Hp : dict_get "protocol"
                 (dict_set "command" (VDict [("value", command)])
                    (dict_set "protocol" (VStr "COMMAND") tmp_check))
               = Some (VStr "COMMAND")).
  { rewrite dict_get_set_other by discriminate. apply dict_get_set_same. }
  destruct (render_dict_items_key _ "protocol" (VStr "COMMAND") _
              (dict_set_nodup _ _ _ (dict_set_nodup _ _ _ Hnd))
              Hp eq_refl _ _ Er) as (r & x & Hr & Hx & Hget).
  apply render_command_text in Hr. subst r.
  assert (Ex : type_fixup (VStr "COMMAND") = Ok (VStr "COMMAND"))
    by (vm_compute; reflexivity).
  rewrite Ex in Hx. injection Hx as <-. exact Hget.
Qed.

Lemma health_check_loop_checks (body : scope -> value -> outcome value)
  (items : list value) :
  (forall tmp_vars check out,
      body tmp_vars check = Ok out -> command_check_ok check out) ->
  forall idx tmp_vars acc out,
    health_check_loop body items idx tmp_vars acc = Ok out ->
    exists outs,
      out = (acc ++ outs)%list
      /\ Forall2 command_check_ok items outs.
Proof.
  intros Hbody.
  induction items as [|check rest IH]; intros idx tmp_vars acc out H.
  - cbn in H. injection H as <-. exists []. rewrite app_nil_r.
    split; [reflexivity | constructor].
  - cbn [health_check_loop] in H.
    destruct (body _ check) as [c| | |] eqn:Ec; cbn [bind] in H;
      try discriminate.
    apply IH in H as (outs & -> & Hall).
    exists (c :: outs). rewrite <- app_assoc. split; [reflexivity|].
    constructor; [|exact Hall]. exact (Hbody _ _ _ Ec).
Qed.

(** When [build_health_checks] returns, every key of [data] other than
    [healthChecks] holds what it held, and [healthChecks] is set exactly
    when the application has checks: to a list with one dictionary per
    check, in their order (no check is filtered out), where the
    dictionary of a check that has a command has the protocol [COMMAND],
    whatever protocol the check declares. *)
Theorem command_check_gets_command_protocol (fuel : nat) (app_vars : scope)
  (section : list (string * value)) (checks : list value)
  (data data' : list (string * value)) :
  dict_get "APP" app_vars = Some (VDict section) ->
  dict_get "health_checks" section = Some (VList checks) ->
  build_health_checks fuel app_vars data = Ok data' ->
  (forall k, k <> "healthChecks" -> dict_get k data' = dict_get k data)
  /\ match checks with
     | [] => data' = data
     | _ =>
         exists outs,
           dict_get "healthChecks" data' = Some (VList outs)
           /\ Forall2 command_check_ok checks outs
     end.
Proof.
  intros Happ Hsec H. unfold build_health_checks in H.
  cbn [py_getitem] in H. rewrite Happ in H. cbn [bind py_getitem] in H.
  rewrite Hsec in H. cbn [bind py_iter] in H.
  destruct (health_check_loop _ checks 0 app_vars []) as [hc| | |] eqn:El;
    cbn [bind] in H; try discriminate.
  apply health_check_loop_checks in El as (outs & -> & Hall);
    [|intros tv check out; apply build_health_check_protocol].
  change ([] ++ outs)%list with outs in H.
  split.
  - intros k Hk. destruct outs; injection H as <-; [reflexivity|].
    now apply dict_get_set_other.
  - destruct Hall as [|check out checks outs Hc Hall].
    + now injection H as <-.
    + injection H as <-. exists (out :: outs).
      split; [apply dict_get_set_same | now constructor].
Qed.

End BuilderFacts.

(** ** The further statements on concrete inputs *)

Section MoreExamples.

Import PyStr Jinja Driver Marathon.
Local Open Scope string_scope.

Lemma render_output_calls_needed_plugins_witness :
  app_render_output [("name", "web")] 0
    [dummy_plugin;
     {| NAME := "other"; has_field := fun _ => false;
        is_needed := fun _ => false;
        generate := fun _ _ => Some (OtherError "KeyError") |};
     dummy_plugin]
  = ([Generate "dummy" 1; Generate "dummy" 1], None).
Proof.
  apply (@render_output_calls_needed_plugins string).
  intros p [<- | [<- | [<- | []]]] Hn; try reflexivity. discriminate.
Defined.

Lemma other_error_stops_the_loop_witness :
  main_loop 0 [[("name", "web")]; [("name", "db")]]
    [dummy_plugin;
     {| NAME := "other"; has_field := fun _ => false;
        is_needed := fun _ => true;
        generate := fun _ _ => Some (OtherError "KeyError") |};
     dummy_plugin]
  = ([Generate "dummy" 1; Generate "other" 1], Some (OtherError "KeyError")).
Proof.
  assert (Hb : forall q : @plugin string,
             In q [dummy_plugin] ->
             is_needed q [("name", "web")] = true ->
             generate q [("name", "web")] (0 + 1) = None).
  { intros q [<- | []] _. reflexivity. }
  exact (@other_error_stops_the_loop string [("name", "web")] 0
           [dummy_plugin]
           {| NAME := "other"; has_field := fun _ => false;
              is_needed := fun _ => true;
              generate := fun _ _ => Some (OtherError "KeyError") |}
           [dummy_plugin] (OtherError "KeyError")
           Hb eq_refl eq_refl
           (fun msg H => match H with end) [[("name", "db")]]).
Defined.

Lemma generate_ordinals_count_from_one_witness :
  0 + 1 <= 2 <= 0 + 2
  /\ exists (p : @plugin string) (a : @app string),
       In p [dummy_plugin] /\ In a [[("name", "web")]; [("name", "db")]]
       /\ is_needed p a = true /\ NAME p = "dummy".
Proof.
  apply (@generate_ordinals_count_from_one string 0
           [[("name", "web")]; [("name", "db")]] [dummy_plugin] "dummy" 2).
  vm_compute. right. left. reflexivity.
Defined.

Lemma type_fixup_idempotent_witness :
  type_fixup (VInt 512) = Ok (VInt 512).
Proof.
  apply (@type_fixup_idempotent no_floats (VStr "__int__512__int__")).
  vm_compute. reflexivity.
Defined.

Lemma rendered_value_has_no_tuple_witness :
  no_tuple (VDict [("ports", VList [VInt 80; VStr "x"])]) = true.
Proof.
  apply (@rendered_value_has_no_tuple no_floats 1 []
           (VDict [("ports", VTuple [VInt 80; VStr "x"])])).
  vm_compute. reflexivity.
Defined.

Lemma plain_data_is_returned_unchanged_witness :
  render_template 0
    (VDict [("privileged", VBool false); ("volumes", VList []);
            ("instances", VInt 1)]) []
  = Ok (VDict [("privileged", VBool false); ("volumes", VList []);
               ("instances", VInt 1)]).
Proof.
  apply (@plain_data_is_returned_unchanged no_floats). reflexivity.
Defined.

Lemma absent_variable_condition_is_false_witness :
  evaluate_condition 1 "USE_CACHE" [("SERVICE_NAME", VStr "api")] = Ok false.
Proof.
  apply (@absent_variable_condition_is_false no_floats 0 "USE_CACHE");
    [reflexivity | reflexivity | discriminate | reflexivity].
Defined.

Lemma nice_json_prefixes_every_line_witness :
  exists r : string,
    filter_to_nice_json (fun _ _ => Ok ("{" ++ String LF "}")) VNone 2 (Some 4%Z)
    = Ok r
    /\ split_lines r = ["    {"; "    }"].
Proof.
  destruct (@nice_json_prefixes_every_line no_floats
              (fun _ _ => Ok ("{" ++ String LF "}")) VNone 2
              ("{" ++ String LF "}") eq_refl) as [_ H].
  destruct (H 4%Z) as [_ H']. apply H'. lia.
Defined.



Lemma scope_numbers_survive_their_filter_witness :
  render_template 1
    (VDict [("instances", VStr (filtered_output_of "N" output_int))])
    [("N", VInt 3)]
  = Ok (VDict [("instances", VInt 3)]).
Proof.
  destruct (@scope_numbers_survive_their_filter no_floats 0
              [("N", VInt 3)] "N" "instances" eq_refl eq_refl) as [H _].
  destruct (H 3%Z eq_refl) as [E _]. exact E.
Defined.

Lemma unreachable_strategy_result_witness :
  dict_get "unreachableStrategy"
    [("id", VStr "web");
     ("unreachableStrategy", VDict [("inactiveAfterSeconds", VInt 60)])]
  = Some (VDict [("inactiveAfterSeconds", VInt 60)])
  /\ dict_get "id"
       [("id", VStr "web");
        ("unreachableStrategy", VDict [("inactiveAfterSeconds", VInt 60)])]
     = dict_get "id" [("id", VStr "web")].
Proof.
  destruct (@unreachable_strategy_result no_floats
              [("APP", VDict [("unreachable_strategy",
                               VDict [("inactive_after_seconds", VStr "60");
                                      ("expunge_after_seconds", VNone)])])]
              [("id", VStr "web")]
              [("id", VStr "web");
               ("unreachableStrategy",
                VDict [("inactiveAfterSeconds", VInt 60)])]
              ltac:(vm_compute; reflexivity)) as (H1 & _ & _).
  split; [reflexivity|]. apply H1. discriminate.
Defined.

Lemma fetch_config_has_no_condition_witness :
  dict_get "id"
    [("id", VStr "web"); ("fetch", VList [VDict [("uri", VStr "a")]])]
  = dict_get "id" [("id", VStr "web")].
Proof.
  destruct (@fetch_config_has_no_condition no_floats 1
              [("APP", VDict [("fetch",
                               VList [VDict [("uri", VStr "a");
                                             ("condition", VStr "USE_A")];
                                      VDict [("uri", VStr "b");
                                             ("condition", VStr "USE_B")]])]);
               ("USE_A", VBool true)]
              [("id", VStr "web")]
              [("id", VStr "web"); ("fetch", VList [VDict [("uri", VStr "a")]])]
              ltac:(vm_compute; reflexivity)) as [H _].
  apply H. discriminate.
Defined.

Lemma unconditional_fetch_entries_are_kept_witness :
  build_fetch_config 0
    [("APP", VDict [("fetch", VList [VDict [("uri", VStr "a")];
                                     VDict [("uri", VStr "b")]])])]
    [("id", VStr "web")]
  = Ok [("id", VStr "web");
        ("fetch", VList [VDict [("uri", VStr "a")]; VDict [("uri", VStr "b")]])].
Proof.
  apply (@unconditional_fetch_entries_are_kept no_floats 0 _
           [("fetch", VList [VDict [("uri", VStr "a")];
                             VDict [("uri", VStr "b")]])]
           [[("uri", VStr "a")]; [("uri", VStr "b")]]
           [("id", VStr "web")]).
  - reflexivity.
  - reflexivity.
  - repeat constructor.
Defined.

Lemma fetch_entries_selected_by_variable_witness :
  build_fetch_config 1
    [("APP", VDict [("fetch",
                     VList [VDict [("uri", VStr "a")];
                            VDict [("uri", VStr "b");
                                   ("condition", VStr "USE_B")];
                            VDict [("condition", VStr "USE_C");
                                   ("uri", VStr "c")]])]);
     ("USE_C", VInt 1)]
    [("id", VStr "web")]
  = Ok [("id", VStr "web");
        ("fetch", VList [VDict [("uri", VStr "a")]; VDict [("uri", VStr "c")]])].
Proof.
  etransitivity.
  - apply (@fetch_entries_selected_by_variable no_floats 0 _
             [("fetch",
               VList [VDict [("uri", VStr "a")];
                      VDict [("uri", VStr "b"); ("condition", VStr "USE_B")];
                      VDict [("condition", VStr "USE_C"); ("uri", VStr "c")]])]
             [[("uri", VStr "a")];
              [("uri", VStr "b"); ("condition", VStr "USE_B")];
              [("condition", VStr "USE_C"); ("uri", VStr "c")]]
             [("id", VStr "web")]).
    + reflexivity.
    + reflexivity.
    + reflexivity.
    + repeat constructor.
  - reflexivity.
Defined.

Lemma command_check_gets_command_protocol_witness :
  dict_get "id"
    [("id", VStr "web");
     ("healthChecks",
      VList [VDict [("intervalSeconds", VInt 10);
                    ("protocol", VStr "COMMAND");
                    ("command", VDict [("value", VStr "/bin/true")])]])]
  = dict_get "id" [("id", VStr "web")].
Proof.
  destruct (@command_check_gets_command_protocol no_floats 1
              [("APP",
                VDict [("health_checks",
                        VList [VDict [("grace_period_seconds", VNone);
                                      ("interval_seconds", VInt 10);
                                      ("timeout_seconds", VNone);
                                      ("max_consecutive_failures", VNone);
                                      ("path", VNone);
                                      ("port_index", VNone);
                                      ("protocol", VStr "HTTP");
                                      ("command", VStr "/bin/true")]])])]
              [("health_checks",
                VList [VDict [("grace_period_seconds", VNone);
                              ("interval_seconds", VInt 10);
                              ("timeout_seconds", VNone);
                              ("max_consecutive_failures", VNone);
                              ("path", VNone);
                              ("port_index", VNone);
                              ("protocol", VStr "HTTP");
                              ("command", VStr "/bin/true")]])]
              [VDict [("grace_period_seconds", VNone);
                      ("interval_seconds", VInt 10);
                      ("timeout_seconds", VNone);
                      ("max_consecutive_failures", VNone);
                      ("path", VNone);
                      ("port_index", VNone);
                      ("protocol", VStr "HTTP");
                      ("command", VStr "/bin/true")]]
              [("id", VStr "web")]
              [("id", VStr "web");
               ("healthChecks",
                VList [VDict [("intervalSeconds", VInt 10);
                              ("protocol", VStr "COMMAND");
                              ("command",
                               VDict [("value", VStr "/bin/true")])]])]
              eq_refl eq_refl ltac:(vm_compute; reflexivity)) as [H _].
  apply H. discriminate.
Defined.

End MoreExamples.
